(** * The replay sampler front end of gcg

    A shallow embedding of [gcg/sampler/sampler.py] (class [Sampler]),
    [gcg/policies/exploration_strategies/epsilon_greedy_strategy.py]
    (class [EpsilonGreedyStrategy]) and the data loader [_load_data] of the two
    [eval_offline.py] scripts.

    The classes the sampler drives ([ReplayPool], [VecEnvExecutor], the
    policy, the action spaces, [mypickle], numpy) live in other files: they
    are taken as interfaces, and every method of the sampler is written over
    them with explicit state passing.  Each call into a collaborator is also
    appended to a call log, so that the order in which the sampler talks to
    its collaborators can be stated; the theorems give the log together with
    the state the method leaves, written in the collaborators' operations. *)

From Stdlib Require Import ZArith QArith Lia.
From stdpp Require Import base gmap list strings.

Local Open Scope Z_scope.

(** ** Python exceptions and results *)

Inductive exn :=
| AssertionError
| AttributeError
| KeyError (key : string)
| NotImplementedError
| ZeroDivisionError
| LoadError.

Inductive result (A : Type) :=
| Ok (a : A)
| Err (e : exn).
Arguments Ok {A} a.
Arguments Err {A} e.

Definition ok {A : Type} (r : result A) : option A :=
  match r with
  | Ok a => Some a
  | Err _ => None
  end.

(** ** numpy: floats and the global random state

    The float operations the sources use are kept abstract, so that every
    statement below holds for IEEE doubles as well as for any idealisation
    of them. *)

Class NumPy := {
  float : Type;
  np_nan : float;
  np_neg : float -> float;
  np_log : float -> float;
  np_sub : float -> float -> float;
  np_sum : list float -> float;
  np_float : Z -> float;
  np_lt : float -> float -> bool;
  RandomState : Type;
  np_random_random : RandomState -> float * RandomState
}.

(** ** Python list idioms *)

(** [l[:stop]] on a list. *)
Definition slice_to {A : Type} (stop : Z) (l : list A) : list A :=
  if stop <? 0 then take (Z.to_nat (Z.of_nat (length l) + stop)) l
  else take (Z.to_nat stop) l.

(** [len(l)] *)
Definition len {A : Type} (l : list A) : Z := Z.of_nat (length l).

(** [np.any(bs)] on a list of booleans. *)
Definition np_any (bs : list bool) : bool := existsb id bs.

(** [sum(zs)] *)
Definition sumZ (zs : list Z) : Z := foldr Z.add 0 zs.

(** ** Action spaces ([gcg.envs.spaces]) as far as the sampler inspects them *)

Inductive Space `{NumPy} :=
| Discrete (flat_dim : Z)
| Box (low high : list float)
| OtherSpace (name : string).

(** ** The collaborators of the sampler *)

Class Collaborators `{NumPy} := {
  Observation : Type;
  EncodedIm : Type;
  EncodedVec : Type;
  Action : Type;
  InfoVal : Type;
  RVal : Type;
  Fname : Type;
  EnvSpec : Type;
  Env : Type;
  EnvStr : Type;
  Params : Type;
  ReplayPool : Type;
  VecEnvExecutor : Type;
  Policy : Type;
  Schedule : Type;

  (* environments *)
  env_spec : Env -> EnvSpec;
  env_horizon : Env -> Z;
  spec_action_space : EnvSpec -> Space;
  space_sample : Space -> RandomState -> Action * RandomState;
  pickle_loads_dumps : Env -> option Env;
  create_env : option EnvStr -> option Env;

  (* VecEnvExecutor *)
  VecEnvExecutor_new : list Env -> Z -> VecEnvExecutor;
  vec_action_space : VecEnvExecutor -> Space;
  vec_current_episode_steps : VecEnvExecutor -> list Z;
  vec_step : list Action -> VecEnvExecutor ->
             (list Observation * list float * list bool * list (gmap string InfoVal))
             * VecEnvExecutor;
  vec_reset : VecEnvExecutor -> list Observation * VecEnvExecutor;

  (* policy *)
  policy_N : Policy -> Z;
  policy_gamma : Policy -> float;
  policy_obs_history_len : Policy -> Z;
  get_actions : list Z -> list Z -> list EncodedIm * list EncodedVec -> bool -> Policy ->
                (list Action * list float * list float * list (gmap string InfoVal))
                * Policy;
  reset_get_action : Policy -> Policy;

  (* schedules.PiecewiseSchedule *)
  schedule_value : Schedule -> Z -> float;

  (* ReplayPool *)
  empty_params : Params;
  ReplayPool_new : EnvSpec -> Z -> Z -> float -> Z -> Z -> string -> bool -> bool -> bool ->
                   Params -> ReplayPool;
  pool_len : ReplayPool -> Z;
  store_observation : Z -> Observation -> ReplayPool -> ReplayPool;
  encode_recent_observation : ReplayPool -> EncodedIm * EncodedVec;
  store_effect : Action -> float -> bool -> gmap string InfoVal -> float -> float ->
                 ReplayPool -> ReplayPool;
  store_rollout : Z -> gmap string (list RVal) -> ReplayPool -> ReplayPool;
  trash_current_rollout : ReplayPool -> Z * ReplayPool;
  force_done : ReplayPool -> ReplayPool;
  pool_can_sample : ReplayPool -> bool;

  (* mypickle.load(fname)['rollouts']; None when it raises *)
  mypickle_load_rollouts : Fname -> option (list (gmap string (list RVal)))
}.

(** A rollout record is a Python dict from field names to per-step arrays. *)
Abbreviation Rollout := (gmap string (list RVal)).
Abbreviation Info := (gmap string InfoVal).

(** ** EpsilonGreedyStrategy *)

Module EpsilonGreedyStrategy.
Section Defs.
Context {np : NumPy} {C : Collaborators}.

Record t := {
  _env_spec : EnvSpec;
  schedule : Schedule
}.

Definition reset (self : t) : t := self.

Definition add_exploration (self : t) (time : Z) (action : Action) (g : RandomState)
  : Action * RandomState :=
  let '(u, g1) := np_random_random g in
  if np_lt u (schedule_value (schedule self) time)
  then space_sample (spec_action_space (_env_spec self)) g1
  else (action, g1).

End Defs.
End EpsilonGreedyStrategy.

(** ** Sampler *)

Module Sampler.
Section Defs.
Context {np : NumPy} {C : Collaborators}.

(** The attributes of a [Sampler] object.  [_curr_observations] is only set
    by [reset] (and [step]); reading it before raises [AttributeError]. *)
Record t := {
  _policy : Policy;
  _n_envs : Z;
  _replay_pools : list ReplayPool;
  _vec_env : VecEnvExecutor;
  _curr_observations : option (list Observation)
}.

(** Calls into the collaborators, in the order they are made. *)
Inductive Call :=
| CallStoreObservation (i : nat) (step : Z) (o : Observation)
| CallEncodeRecentObservation (i : nat)
| CallActionSpaceSample
| CallGetActions (steps : list Z) (explore : bool)
| CallVecEnvStep (actions : list Action)
| CallResetGetAction
| CallStoreEffect (i : nat) (a : Action) (r : float) (d : bool) (info : Info)
                  (est_value logprob : float)
| CallVecEnvReset
| CallForceDone (i : nat)
| CallTrashCurrentRollout (i : nat)
| CallLoad (fname : Fname)
| CallStoreRollout (i : nat) (start_index : Z) (rollout : Rollout).

(** The sampler object together with what it shares with the rest of the
    process: numpy's global random state and the log of calls made. *)
Record World := {
  self : t;
  random_state : RandomState;
  calls : list Call
}.

Inductive outcome (A : Type) :=
| Return (a : A) (w : World)
| Raise (e : exn) (w : World).
Arguments Return {A} a w.
Arguments Raise {A} e w.

Definition world_of {A : Type} (o : outcome A) : World :=
  match o with
  | Return _ w => w
  | Raise _ w => w
  end.

Definition returned {A : Type} (o : outcome A) : option A :=
  match o with
  | Return a _ => Some a
  | Raise _ _ => None
  end.

Definition raised {A : Type} (o : outcome A) : option exn :=
  match o with
  | Return _ _ => None
  | Raise e _ => Some e
  end.

Definition set_pools (pools : list ReplayPool) (s : t) : t :=
  {| _policy := _policy s; _n_envs := _n_envs s; _replay_pools := pools;
     _vec_env := _vec_env s; _curr_observations := _curr_observations s |}.

Definition log_calls (cs : list Call) (w : World) : World :=
  {| self := self w; random_state := random_state w; calls := calls w ++ cs |}.

(** *** [__init__] *)

Definition __init__ (policy : Policy) (env : Env) (n_envs replay_pool_size max_path_length : Z)
    (sampling_method : string) (save_rollouts save_rollouts_observations save_env_infos : bool)
    (env_str : option EnvStr) (replay_pool_params : Params) : result t :=
  if negb (n_envs =? 1) then Err AssertionError (* b/c policy reset *)
  else
    let replay_pools :=
      replicate (Z.to_nat n_envs)
        (ReplayPool_new (env_spec env) (env_horizon env) (policy_N policy) (policy_gamma policy)
           (replay_pool_size / n_envs) (policy_obs_history_len policy) sampling_method
           save_rollouts save_rollouts_observations save_env_infos replay_pool_params) in
    let envs :=
      if n_envs =? 1 then Some [env]
      else if 1 <? n_envs then
        match pickle_loads_dumps env with
        | Some copy => Some (replicate (Z.to_nat n_envs) copy)
        | None => option_map (replicate (Z.to_nat n_envs)) (create_env env_str)
        end
      else Some [env] in
    match envs with
    | None => Err LoadError
    | Some envs =>
        Ok {| _policy := policy; _n_envs := n_envs; _replay_pools := replay_pools;
              _vec_env := VecEnvExecutor_new envs max_path_length;
              _curr_observations := None |}
    end.

Definition n_envs (s : t) : Z := _n_envs s.

(** [__len__] *)
Definition __len__ (s : t) : Z := sumZ (map pool_len (_replay_pools s)).

(** *** [step] *)

(** The first loop of [step]: [zip(self._replay_pools, self._curr_observations)];
    pools beyond the shorter list are left alone. *)
Fixpoint store_observations (step : Z) (i : nat) (pools : list ReplayPool)
    (observations : list Observation)
  : list ReplayPool * list (EncodedIm * EncodedVec) * list Call :=
  match pools, observations with
  | replay_pool :: pools', observation :: observations' =>
      let replay_pool1 := store_observation (step + Z.of_nat i) observation replay_pool in
      let encoded_observation := encode_recent_observation replay_pool1 in
      let '(rest, encoded, cs) := store_observations step (S i) pools' observations' in
      (replay_pool1 :: rest, encoded_observation :: encoded,
       CallStoreObservation i (step + Z.of_nat i) observation
         :: CallEncodeRecentObservation i :: cs)
  | _, _ => (pools, [], [])
  end.

(** [[self._vec_env.action_space.sample() for _ in range(n)]] *)
Fixpoint sample_actions (n : nat) (space : Space) (g : RandomState)
  : list Action * RandomState :=
  match n with
  | O => ([], g)
  | S n' =>
      let '(a, g1) := space_sample space g in
      let '(rest, g2) := sample_actions n' space g1 in
      (a :: rest, g2)
  end.

(** The log-probability of a uniformly random action, by kind of space. *)
Definition random_logprob (space : Space) : result float :=
  match space with
  | Discrete flat_dim => Ok (np_neg (np_log (np_float flat_dim)))
  | Box low high => Ok (np_neg (np_sum (map np_log (zip_with np_sub high low))))
  | OtherSpace _ => Err NotImplementedError
  end.

(** [for env_info, action_info in zip(env_infos, action_infos):
       env_info.update(action_info)] *)
Fixpoint update_infos (env_infos action_infos : list Info) : list Info :=
  match env_infos, action_infos with
  | env_info :: env_infos', action_info :: action_infos' =>
      (action_info ∪ env_info) :: update_infos env_infos' action_infos'
  | _, _ => env_infos
  end.

(** The last loop of [step], a [zip] of seven lists. *)
Fixpoint store_effects (i : nat) (pools : list ReplayPool) (actions : list Action)
    (rewards : list float) (dones : list bool) (env_infos : list Info)
    (est_values logprobs : list float) : list ReplayPool * list Call :=
  match pools, actions, rewards, dones, env_infos, est_values, logprobs with
  | replay_pool :: pools', action :: actions', reward :: rewards', done :: dones',
    env_info :: env_infos', est_value :: est_values', logprob :: logprobs' =>
      let '(rest, cs) :=
        store_effects (S i) pools' actions' rewards' dones' env_infos' est_values' logprobs' in
      (store_effect action reward done env_info est_value logprob replay_pool :: rest,
       CallStoreEffect i action reward done env_info est_value logprob :: cs)
  | _, _, _, _, _, _, _ => (pools, [])
  end.

(** The "get actions" part of [step]: either [n_envs] random actions with
    their uniform log-probability and no value estimate, or what the policy
    answers.  The left result is an exception raised on the way. *)
Definition choose_actions (step : Z) (take_random_actions explore : bool) (s : t)
    (encoded : list (EncodedIm * EncodedVec)) (g : RandomState)
  : (exn * RandomState * list Call)
    + (list Action * list float * list float * list Info * Policy * RandomState * list Call) :=
  let n := Z.to_nat (_n_envs s) in
  if take_random_actions then
    let space := vec_action_space (_vec_env s) in
    let '(actions, g1) := sample_actions n space g in
    let cs := replicate n CallActionSpaceSample in
    match random_logprob space with
    | Ok logprob =>
        inr (actions, replicate n np_nan, replicate n logprob, replicate n (∅ : Info),
             _policy s, g1, cs)
    | Err e => inl (e, g1, cs)
    end
  else
    let steps := seqZ step (_n_envs s) in
    let '((actions, est_values, logprobs, action_infos), policy1) :=
      get_actions steps (vec_current_episode_steps (_vec_env s))
        (map fst encoded, map snd encoded) explore (_policy s) in
    inr (actions, est_values, logprobs, action_infos, policy1, g,
         [CallGetActions steps explore]).

Definition step (step : Z) (take_random_actions explore : bool) (w : World) : outcome unit :=
  let s := self w in
  match _curr_observations s with
  | None => Raise AttributeError w
  | Some curr_observations =>
      (* store last observations and get encoded *)
      let '(pools1, encoded, cs1) :=
        store_observations step 0 (_replay_pools s) curr_observations in
      (* get actions *)
      match choose_actions step take_random_actions explore s encoded (random_state w) with
      | inl (e, g1, cs2) =>
          Raise e {| self := set_pools pools1 s; random_state := g1;
                     calls := calls w ++ cs1 ++ cs2 |}
      | inr (actions, est_values, logprobs, action_infos, policy1, g1, cs2) =>
          (* take step *)
          let '((next_observations, rewards, dones, env_infos), vec_env1) :=
            vec_step actions (_vec_env s) in
          let env_infos1 := update_infos env_infos action_infos in
          let '(policy2, cs3) :=
            if np_any dones then (reset_get_action policy1, [CallResetGetAction])
            else (policy1, []) in
          (* add to replay pool *)
          let '(pools2, cs4) :=
            store_effects 0 pools1 actions rewards dones env_infos1 est_values logprobs in
          Return tt
            {| self := {| _policy := policy2; _n_envs := _n_envs s; _replay_pools := pools2;
                          _vec_env := vec_env1;
                          _curr_observations := Some next_observations |};
               random_state := g1;
               calls := calls w ++ cs1 ++ cs2 ++ [CallVecEnvStep actions] ++ cs3 ++ cs4 |}
      end
  end.

(** *** [trash_current_rollouts] and [reset] *)

Fixpoint trash_pools (i : nat) (steps_removed : Z) (pools : list ReplayPool)
  : Z * list ReplayPool * list Call :=
  match pools with
  | [] => (steps_removed, [], [])
  | replay_pool :: pools' =>
      let '(removed, replay_pool1) := trash_current_rollout replay_pool in
      let '(total, rest, cs) := trash_pools (S i) (steps_removed + removed) pools' in
      (total, replay_pool1 :: rest, CallTrashCurrentRollout i :: cs)
  end.

Definition trash_current_rollouts (w : World) : outcome Z :=
  let '(steps_removed, pools1, cs) := trash_pools 0 0 (_replay_pools (self w)) in
  Return steps_removed (log_calls cs
    {| self := set_pools pools1 (self w); random_state := random_state w; calls := calls w |}).

Definition reset (w : World) : outcome unit :=
  let s := self w in
  let '(observations, vec_env1) := vec_reset (_vec_env s) in
  Return tt
    {| self := {| _policy := _policy s; _n_envs := _n_envs s;
                  _replay_pools := map force_done (_replay_pools s);
                  _vec_env := vec_env1;
                  _curr_observations := Some observations |};
       random_state := random_state w;
       calls := calls w ++ CallVecEnvReset
                  :: imap (fun i _ => CallForceDone i) (_replay_pools s) |}.

(** *** [can_sample] *)

Definition can_sample (s : t) : bool := np_any (map pool_can_sample (_replay_pools s)).

(** *** [add_rollouts] *)

(** The fields cut when the step budget is reached. *)
Definition trimmed_keys : list string :=
  ["observations"; "actions"; "rewards"; "dones"; "logprobs"]%string.

(** [for k in keys: rollout[k] = rollout[k][:diff]] *)
Fixpoint trim_rollout (diff : Z) (keys : list string) (rollout : Rollout) : result Rollout :=
  match keys with
  | [] => Ok rollout
  | k :: keys' =>
      match rollout !! k with
      | None => Err (KeyError k)
      | Some arr => trim_rollout diff keys' (<[k := slice_to diff arr]> rollout)
      end
  end.

(** The local variables of [add_rollouts] that survive an iteration:
    [step], the position of the [itertools.cycle] iterator over the pools
    (the number of pools it has handed out), [done_adding], the pools and the
    calls made.  ([itr] is counted by the source and never read.) *)
Record adding := {
  a_step : Z;
  a_next : nat;
  a_done_adding : bool;
  a_pools : list ReplayPool;
  a_calls : list Call
}.

(** The budget check on one rollout of [r_len] steps at step counter [step]:
    the rollout to store, the new value of [done_adding] and the new
    [r_len]. *)
Definition budget_cut (max_to_add : option Z) (step : Z) (rollout : Rollout) (r_len : Z)
  : result (Rollout * bool * Z) :=
  match max_to_add with
  | Some m =>
      if m <=? step + r_len then
        match trim_rollout (m - step) trimmed_keys rollout with
        | Ok rollout1 =>
            match rollout1 !! "dones"%string with
            | Some dones1 => Ok (rollout1, true, len dones1)
            | None => Err (KeyError "dones")
            end
        | Err e => Err e
        end
      else Ok (rollout, false, r_len)
  | None => Ok (rollout, false, r_len)
  end.

(** The inner loop, [for rollout, replay_pool in zip(rollouts, replay_pools)].
    [zip] asks [rollouts] first, so the cycle is only advanced when there is a
    rollout to pair with; over no pools at all the cycle is empty and the loop
    body never runs. *)
Fixpoint add_file (max_to_add : option Z) (rollouts : list Rollout) (st : adding)
  : option exn * adding :=
  match rollouts with
  | [] => (None, st)
  | rollout :: rollouts' =>
      match a_pools st with
      | [] => (None, st)
      | _ :: _ =>
          let i := (a_next st mod length (a_pools st))%nat in
          match rollout !! "dones"%string with
          | None => (Some (KeyError "dones"), st)
          | Some dones =>
              let step := a_step st in
              match budget_cut max_to_add step rollout (len dones) with
              | Err e => (Some e, st)
              | Ok (rollout1, done_adding, r_len1) =>
                  let st1 :=
                    {| a_step := step + r_len1;
                       a_next := S (a_next st);
                       a_done_adding := done_adding;
                       a_pools := alter (store_rollout step rollout1) i (a_pools st);
                       a_calls := a_calls st ++ [CallStoreRollout i step rollout1] |} in
                  if done_adding then (None, st1) else add_file max_to_add rollouts' st1
              end
          end
      end
  end.

(** The outer loop, [for fname in rollout_filenames]. *)
Fixpoint add_files (max_to_add : option Z) (fnames : list Fname) (st : adding)
  : option exn * adding :=
  match fnames with
  | [] => (None, st)
  | fname :: fnames' =>
      let st0 :=
        {| a_step := a_step st; a_next := a_next st; a_done_adding := a_done_adding st;
           a_pools := a_pools st; a_calls := a_calls st ++ [CallLoad fname] |} in
      match mypickle_load_rollouts fname with
      | None => (Some LoadError, st0)
      | Some rollouts =>
          match add_file max_to_add rollouts st0 with
          | (Some e, st1) => (Some e, st1)
          | (None, st1) =>
              if a_done_adding st1 then (None, st1) else add_files max_to_add fnames' st1
          end
      end
  end.

Definition add_rollouts_from (s : t) : adding :=
  {| a_step := sumZ (map pool_len (_replay_pools s)); a_next := 0;
     a_done_adding := false; a_pools := _replay_pools s; a_calls := [] |}.

Definition add_rollouts (rollout_filenames : list Fname) (max_to_add : option Z) (w : World)
  : outcome unit :=
  let '(e, st) := add_files max_to_add rollout_filenames (add_rollouts_from (self w)) in
  let w1 := {| self := set_pools (a_pools st) (self w); random_state := random_state w;
               calls := calls w ++ a_calls st |} in
  match e with
  | None => Return tt w1
  | Some e => Raise e w1
  end.

(** *** Reading the call log *)

(** The calls of [step]'s first loop over the given observations. *)
Definition observation_calls (step : Z) (observations : list Observation) : list Call :=
  concat (imap (fun i o => [CallStoreObservation i (step + Z.of_nat i) o;
                            CallEncodeRecentObservation i]) observations).

(** The tuples the last loop of [step] iterates over. *)
Definition zip_effects (actions : list Action) (rewards : list float) (dones : list bool)
    (env_infos : list Info) (est_values logprobs : list float)
  : list (Action * float * bool * Info * float * float) :=
  zip_with (fun a '(r, (d, (info, (v, lp)))) => (a, r, d, info, v, lp)) actions
    (zip rewards (zip dones (zip env_infos (zip est_values logprobs)))).

Definition effect_calls (effects : list (Action * float * bool * Info * float * float))
  : list Call :=
  imap (fun i '(a, r, d, info, v, lp) => CallStoreEffect i a r d info v lp) effects.

Definition is_effect_call (c : Call) : bool :=
  match c with
  | CallStoreEffect _ _ _ _ _ _ _ => true
  | _ => false
  end.

Definition is_env_step_call (c : Call) : bool :=
  match c with
  | CallVecEnvStep _ => true
  | _ => false
  end.

(** In a call log, the policy is told about a finished episode only after
    every effect has been stored ... *)
Definition notified_after_effects (cs : list Call) : Prop :=
  forall i j c, cs !! i = Some CallResetGetAction -> cs !! j = Some c ->
                is_effect_call c = true -> (j < i)%nat.

(** ... or before any effect is stored. *)
Definition notified_before_effects (cs : list Call) : Prop :=
  forall i j c, cs !! i = Some CallResetGetAction -> cs !! j = Some c ->
                is_effect_call c = true -> (i < j)%nat.

(** The calls made between two worlds. *)
Definition new_calls (w w' : World) : list Call := drop (length (calls w)) (calls w').

(** The [store_rollout] calls of a log: pool, start index and rollout. *)
Definition store_calls (cs : list Call) : list (nat * Z * Rollout) :=
  omap (fun c => match c with
                 | CallStoreRollout i start rollout => Some (i, start, rollout)
                 | _ => None
                 end) cs.

(** [len(rollout['dones'])], the number of steps of a stored rollout. *)
Definition rollout_len (rollout : Rollout) : Z :=
  len (default [] (rollout !! "dones"%string)).

(** The steps held by a list of [store_rollout] calls. *)
Definition stored_steps {A : Type} (sc : list (A * Rollout)) : Z :=
  sumZ (map (fun c => rollout_len c.2) sc).

(** [cut] is [rollout] with the five trimmed fields sliced to [diff] and
    every other field as it was. *)
Definition is_cut (diff : Z) (rollout cut : Rollout) : Prop :=
  (forall k, k ∈ trimmed_keys -> cut !! k = slice_to diff <$> rollout !! k)
  /\ (forall k, k ∉ trimmed_keys -> cut !! k = rollout !! k).

(** Under a budget of [m] steps, a call of [add_rollouts] is either a file
    load or the store of a whole rollout that stays below the budget ... *)
Definition whole_store (m : Z) (src : Rollout -> Prop) (c : Call) : Prop :=
  match c with
  | CallLoad _ => True
  | CallStoreRollout _ start rollout => src rollout /\ start + rollout_len rollout < m
  | _ => False
  end.

(** ... or the store of a rollout cut where the budget is reached. *)
Definition cut_store (m : Z) (src : Rollout -> Prop) (c : Call) : Prop :=
  match c with
  | CallStoreRollout _ start cut =>
      exists rollout, src rollout /\ start <= m <= start + rollout_len rollout
                      /\ is_cut (m - start) rollout cut
  | _ => False
  end.

(** The shape of the log of one [add_rollouts] call under a budget. *)
Definition budget_log (m : Z) (src : Rollout -> Prop) (cs : list Call) (done_adding : bool)
  : Prop :=
  if done_adding
  then exists pre c, cs = pre ++ [c] /\ Forall (whole_store m src) pre /\ cut_store m src c
  else Forall (whole_store m src) cs.

(** Start indices and pools of successive [store_rollout] calls: each
    starts where the steps before it end, on the next pool in turn. *)
Definition chained (s0 : Z) (k : nat) (sc : list (nat * Z * Rollout)) : Prop :=
  forall j i start rollout,
    sc !! j = Some (i, start, rollout) ->
    start = s0 + stored_steps (take j sc) /\ i = (j mod k)%nat.

(** What the loops of [add_rollouts] keep true of their local variables. *)
Definition consistent (s0 : Z) (k : nat) (st : adding) : Prop :=
  length (a_pools st) = k
  /\ a_next st = length (store_calls (a_calls st))
  /\ a_step st = s0 + stored_steps (store_calls (a_calls st))
  /\ chained s0 k (store_calls (a_calls st)).

(** A rollout that one of the files holds. *)
Definition loaded_from (fnames : list Fname) (rollout : Rollout) : Prop :=
  exists fname rollouts,
    fname ∈ fnames /\ mypickle_load_rollouts fname = Some rollouts /\ rollout ∈ rollouts.

End Defs.

Arguments Return {np C A} a w.
Arguments Raise {np C A} e w.

End Sampler.

(** ** Sampler: what a call leaves in the pools

    The state after a call, written with the collaborators' own operations
    ([store_observation], [encode_recent_observation], [store_effect],
    [store_rollout], [space_sample]) and not with the loops of the sampler. *)

Module SamplerState.
Section Defs.
Context {np : NumPy} {C : Collaborators}.
Import Sampler.

(** Pool [i] once the current observation of environment [i], if there is
    one, has been stored in it at step [step + i]. *)
Definition observed (step : Z) (curr : list Observation) (i : nat) (p : ReplayPool)
  : ReplayPool :=
  match curr !! i with
  | Some o => store_observation (step + Z.of_nat i) o p
  | None => p
  end.

(** Pool [i] once the effect of environment [i], if there is one, has been
    stored in it. *)
Definition with_effect (effects : list (Action * float * bool * Info * float * float))
    (i : nat) (p : ReplayPool) : ReplayPool :=
  match effects !! i with
  | Some (a, r, d, info, v, lp) => store_effect a r d info v lp p
  | None => p
  end.

(** The encoded history views: each read from its pool after the current
    observation was stored in it. *)
Definition encodings (step : Z) (pools : list ReplayPool) (curr : list Observation)
  : list (EncodedIm * EncodedVec) :=
  imap (fun i '(p, o) => encode_recent_observation (store_observation (step + Z.of_nat i) o p))
       (zip pools curr).

(** The environments' infos, each updated with the info the policy gave
    for that environment where it gave one: a key both carry has the
    policy's value. *)
Definition merged_infos (env_infos action_infos : list Info) : list Info :=
  imap (fun i env_info => match action_infos !! i with
                          | Some action_info => action_info ∪ env_info
                          | None => env_info
                          end) env_infos.

(** The random state after one [sample()] of the action space. *)
Definition next_random_state (space : Space) (g : RandomState) : RandomState :=
  (space_sample space g).2.

(** [n] successive [sample()]s of the action space, from random state [g]. *)
Definition drawn (space : Space) (g : RandomState) (n : nat) : list Action :=
  map (fun i => (space_sample space (Nat.iter i (next_random_state space) g)).1) (seq 0 n).

(** The pools after the [store_rollout] calls [sc], each made on the pool
    it names. *)
Definition stored_in (pools : list ReplayPool) (sc : list (nat * Z * Rollout))
  : list ReplayPool :=
  foldl (fun pools c => alter (store_rollout c.1.2 c.2) c.1.1 pools) pools sc.

(** The files a log shows as loaded, in order. *)
Definition load_calls (cs : list Call) : list Fname :=
  omap (fun c => match c with CallLoad fname => Some fname | _ => None end) cs.

(** Every rollout of [rollouts] ends below the budget of [m] steps when
    they are stored one after the other from step [start] on. *)
Definition below_budget (m start : Z) (rollouts : list Rollout) : Prop :=
  forall j rollout, rollouts !! j = Some rollout ->
                    start + sumZ (map rollout_len (take (S j) rollouts)) < m.

End Defs.
End SamplerState.

(** ** EvalOffline._load_data

    The two [eval_offline.py] scripts carry the same [_load_data]. *)

Module EvalOffline.
Section Defs.
Context {np : NumPy} {C : Collaborators}.

Record t := {
  _env : Env;
  _model : Policy
}.

(** The [try]/[except] loop over the files found by [glob.iglob]. *)
Fixpoint load_files (fnames : list Fname) (rollouts : list Rollout)
    (num_load_success num_load_fail : Z) : list Rollout * Z * Z :=
  match fnames with
  | [] => (rollouts, num_load_success, num_load_fail)
  | fname :: fnames' =>
      match mypickle_load_rollouts fname with
      | Some loaded => load_files fnames' (rollouts ++ loaded) (num_load_success + 1) num_load_fail
      | None => load_files fnames' rollouts num_load_success (num_load_fail + 1)
      end
  end.

(** [100. * num_load_success / float(num_load_success + num_load_fail)],
    over the rationals. *)
Definition success_ratio (num_load_success num_load_fail : Z) : result Q :=
  if num_load_success + num_load_fail =? 0 then Err ZeroDivisionError
  else Ok (100 * inject_Z num_load_success / inject_Z (num_load_success + num_load_fail))%Q.

(** [sum([len(r['dones']) for r in rollouts])] *)
Fixpoint total_steps (rollouts : list Rollout) : result Z :=
  match rollouts with
  | [] => Ok 0
  | r :: rollouts' =>
      match r !! "dones"%string with
      | None => Err (KeyError "dones")
      | Some dones =>
          match total_steps rollouts' with
          | Ok n => Ok (len dones + n)
          | Err e => Err e
          end
      end
  end.

(** The final loop: [replay_pool.store_rollout(curr_len, rollout)] for every
    rollout, with the calls made. *)
Fixpoint store_rollouts (curr_len : Z) (rollouts : list Rollout) (replay_pool : ReplayPool)
  : result (ReplayPool * list (Z * Rollout)) :=
  match rollouts with
  | [] => Ok (replay_pool, [])
  | rollout :: rollouts' =>
      let replay_pool1 := store_rollout curr_len rollout replay_pool in
      match rollout !! "dones"%string with
      | None => Err (KeyError "dones")
      | Some dones =>
          match store_rollouts (curr_len + len dones) rollouts' replay_pool1 with
          | Ok (p, cs) => Ok (p, (curr_len, rollout) :: cs)
          | Err e => Err e
          end
      end
  end.

(** What a run of [_load_data] leaves behind: the ratio written to the log,
    the pool returned, and the [store_rollout] calls made on it. *)
Record loaded := {
  logged_ratio : Q;
  replay_pool : ReplayPool;
  stored : list (Z * Rollout)
}.

(** [folder_exists] is [os.path.exists(folder)] and [fnames] the files the
    recursive glob yields.  [int(1.1 * n)] is [11 * n / 10] for the step
    counts a pool can hold. *)
Definition _load_data (self : t) (folder_exists : bool) (fnames : list Fname) : result loaded :=
  if negb folder_exists then Err AssertionError
  else
    let '(rollouts, num_load_success, num_load_fail) := load_files fnames [] 0 0 in
    match success_ratio num_load_success num_load_fail with
    | Err e => Err e
    | Ok ratio =>
        match total_steps rollouts with
        | Err e => Err e
        | Ok total =>
            let replay_pool0 :=
              ReplayPool_new (env_spec (_env self)) (env_horizon (_env self))
                (policy_N (_model self)) (policy_gamma (_model self))
                (11 * total / 10) (policy_obs_history_len (_model self))
                "uniform" false false false empty_params in
            match store_rollouts 0 rollouts replay_pool0 with
            | Err e => Err e
            | Ok (p, cs) => Ok {| logged_ratio := ratio; replay_pool := p; stored := cs |}
            end
        end
    end.

End Defs.
End EvalOffline.

(** ** A symbolic numpy

    Floats as the expressions that produced them, and the global random
    state as a tape of the draws still to come: enough to run the sampler
    on concrete inputs. *)

#[warnings="-register-all"]
Inductive sfloat :=
| SNan
| SInt (z : Z)
| SNeg (x : sfloat)
| SLog (x : sfloat)
| SSub (x y : sfloat)
| SSum (xs : list sfloat).

Definition sfloat_lt (x y : sfloat) : bool :=
  match x, y with
  | SInt a, SInt b => a <? b
  | _, _ => false
  end.

Definition tape_random (g : list sfloat) : sfloat * list sfloat :=
  match g with
  | u :: g' => (u, g')
  | [] => (SInt 0, [])
  end.

#[export] Instance symbolic_numpy : NumPy := {|
  float := sfloat;
  np_nan := SNan;
  np_neg := SNeg;
  np_log := SLog;
  np_sub := SSub;
  np_sum := SSum;
  np_float := SInt;
  np_lt := sfloat_lt;
  RandomState := list sfloat;
  np_random_random := tape_random
|}.

(** Python values as they occur in observations, actions and rollout arrays. *)
Inductive pyval :=
| VNone
| VInt (z : Z)
| VBool (b : bool)
| VFloat (x : sfloat)
| VTuple (a b : pyval).

Definition truthy (v : pyval) : bool :=
  match v with
  | VBool b => b
  | VInt z => negb (z =? 0)
  | _ => false
  end.

(** ** RingStore *)

Module RingStore.

(** Modelled from the spec: [ReplayPool] ([gcg/sampler/replay_pool.py]) is
    not among the sources.  This is the RingStore of sections 3, 4.1 and 4.2:
    parallel ring arrays of fixed capacity written at
    [step_index mod capacity], with [head] the next write position,
    [current_size] growing up to the capacity, and the episode structure
    derived from the [done] flags. *)
Record transition := {
  step_index : Z;
  observation : pyval;
  action : pyval;
  reward : pyval;
  done : bool;
  est_value : pyval;
  logprob : pyval;
  env_info : gmap string pyval;
  complete : bool
}.

(** Modelled from the spec: the state of a [ReplayPool] (not among the
    sources), the RingStore of section 3 with its [capacity], [current_size]
    and [head]; [open_steps] counts the transitions of the episode that is
    still open. *)
Record t := {
  capacity : Z;
  N : Z;
  H : Z;
  current_size : Z;
  head : Z;
  open_steps : Z;
  ring : gmap Z transition
}.

(** Modelled from the spec: the constructor of [ReplayPool] (not among
    the sources); a store is created empty with its capacity, return horizon
    and history length. *)
Definition new (size n h : Z) : t :=
  {| capacity := size; N := n; H := h; current_size := 0; head := 0; open_steps := 0;
     ring := ∅ |}.

(** Modelled from the spec: [ring_position = step_index mod capacity], the
    indexing of [ReplayPool] (not among the sources). *)
Definition ring_position (p : t) (step : Z) : Z := step mod capacity p.

(** Modelled from the spec: the write into the ring arrays of [ReplayPool]
    (not among the sources); writing a transition at the ring position of its
    step index overwrites what was there, moves [head] behind it and grows
    [current_size] up to the capacity. *)
Definition write (tr : transition) (p : t) : t :=
  let pos := ring_position p (step_index tr) in
  {| capacity := capacity p; N := N p; H := H p;
     current_size := Z.min (capacity p) (current_size p + 1);
     head := ring_position p (pos + 1);
     open_steps := if done tr then 0 else open_steps p + 1;
     ring := <[pos := tr]> (ring p) |}.

(** Modelled from the spec: [ReplayPool.store_observation] (not among the
    sources) writes the observation half of a new transition; the effect
    fields are undefined until [store_effect]. *)
Definition store_observation (step : Z) (o : pyval) (p : t) : t :=
  write {| step_index := step; observation := o; action := VNone; reward := VNone;
           done := false; est_value := VNone; logprob := VNone; env_info := ∅;
           complete := false |} p.

(** Modelled from the spec: [ReplayPool.store_effect] (not among the
    sources) completes the most recently opened transition; a [done] effect
    closes the episode. *)
Definition store_effect (a r : pyval) (d : bool) (info : gmap string pyval) (v lp : pyval)
    (p : t) : t :=
  let pos := ring_position p (head p - 1) in
  {| capacity := capacity p; N := N p; H := H p;
     current_size := current_size p; head := head p;
     open_steps := if d then 0 else open_steps p;
     ring := alter (fun tr =>
               {| step_index := step_index tr; observation := observation tr;
                  action := a; reward := r; done := d; est_value := v; logprob := lp;
                  env_info := info; complete := true |}) pos (ring p) |}.

(** Modelled from the spec: the [i]-th transition of a rollout record, as
    [ReplayPool.store_rollout] (not among the sources) reads it off the
    parallel arrays. *)
Definition rollout_entry (start_index : Z) (rollout : gmap string (list pyval)) (i : nat)
  : transition :=
  let field k := default VNone (rollout !! k ≫= (.!! i)) in
  {| step_index := start_index + Z.of_nat i;
     observation := field "observations"%string;
     action := field "actions"%string;
     reward := field "rewards"%string;
     done := truthy (field "dones"%string);
     est_value := field "est_values"%string;
     logprob := field "logprobs"%string;
     env_info := ∅;
     complete := true |}.

(** Modelled from the spec: [ReplayPool.store_rollout] (not among the
    sources) ingests the parallel arrays of a recorded episode from
    [start_index] on, one complete transition per entry of [dones]. *)
Definition store_rollout (start_index : Z) (rollout : gmap string (list pyval)) (p : t) : t :=
  foldl (fun q i => write (rollout_entry start_index rollout i) q) p
        (seq 0 (length (default [] (rollout !! "dones"%string)))).

(** Modelled from the spec: [ReplayPool.trash_current_rollout] (not among
    the sources) rewinds [head] and [current_size] over the open episode and
    returns how many steps went. *)
Definition trash_current_rollout (p : t) : Z * t :=
  (open_steps p,
   {| capacity := capacity p; N := N p; H := H p;
      current_size := current_size p - open_steps p;
      head := ring_position p (head p - open_steps p);
      open_steps := 0;
      ring := ring p |}).

(** Modelled from the spec: [ReplayPool.force_done] (not among the
    sources) closes the open episode at its last transition. *)
Definition force_done (p : t) : t :=
  if open_steps p =? 0 then p
  else
    {| capacity := capacity p; N := N p; H := H p;
       current_size := current_size p; head := head p;
       open_steps := 0;
       ring := alter (fun tr =>
                 {| step_index := step_index tr; observation := observation tr;
                    action := action tr; reward := reward tr; done := true;
                    est_value := est_value tr; logprob := logprob tr;
                    env_info := env_info tr; complete := complete tr |})
                 (ring_position p (head p - 1)) (ring p) |}.

(** Modelled from the spec: the history view that
    [ReplayPool.encode_recent_observation] (not among the sources) builds for
    the newest transition, [H] frames oldest first; frames from before the
    start of the open episode are zero ([None]). *)
Definition frames (p : t) : list (option pyval) :=
  map (fun j : nat =>
         if Z.of_nat j <? open_steps p
         then observation <$> ring p !! ring_position p (head p - 1 - Z.of_nat j)
         else None)
      (reverse (seq 0 (Z.to_nat (H p)))).

(** Modelled from the spec: the image-like and the flat vector part of an
    observation, as [ReplayPool] (not among the sources) splits it. *)
Definition im_part (v : pyval) : pyval :=
  match v with VTuple a _ => a | _ => v end.

(** Modelled from the spec: the flat vector part of an observation, see
    [im_part]. *)
Definition vec_part (v : pyval) : pyval :=
  match v with VTuple _ b => b | _ => VNone end.

(** Modelled from the spec: [ReplayPool.encode_recent_observation] (not
    among the sources), the history view split in its two tensors. *)
Definition encode_recent_observation (p : t) : list (option pyval) * list (option pyval) :=
  (map (option_map im_part) (frames p), map (option_map vec_part) (frames p)).

(** Modelled from the spec: the longest run of stored transitions inside
    one episode, walking the occupied range from the oldest transition; what
    [ReplayPool.can_sample] (not among the sources) needs. *)
Definition longest_run (p : t) : Z :=
  snd (foldl (fun '(run, best) (j : nat) =>
                let pos := ring_position p (head p - current_size p + Z.of_nat j) in
                let run1 := run + 1 in
                let best1 := Z.max best run1 in
                match ring p !! pos with
                | Some tr => if done tr then (0, best1) else (run1, best1)
                | None => (0, best)
                end)
             (0, 0) (seq 0 (Z.to_nat (current_size p)))).

(** Modelled from the spec: [ReplayPool.can_sample] (not among the
    sources) holds once [H + N] contiguous steps of one episode are stored. *)
Definition can_sample (p : t) : bool := H p + N p <=? longest_run p.

(** Modelled from the spec: one control tick on a [ReplayPool] (not among
    the sources), as section 4.5 makes it: the observation is stored at
    [step], then the effect (action, reward, done, info, value,
    log-probability) of that step. *)
Definition tick (step : Z) (o : pyval)
    (e : pyval * pyval * bool * gmap string pyval * pyval * pyval) (p : t) : t :=
  let '(a, r, d, info, v, lp) := e in
  store_effect a r d info v lp (store_observation step o p).

(** Modelled from the spec: control ticks on a [ReplayPool] (not among the
    sources) at step indices that go up by one from [step] on. *)
Fixpoint ticks (step : Z)
    (l : list (pyval * (pyval * pyval * bool * gmap string pyval * pyval * pyval)))
    (p : t) : t :=
  match l with
  | [] => p
  | (o, e) :: l' => ticks (step + 1) l' (tick step o e p)
  end.





End RingStore.

(** ** Test doubles

    Scripted stand-ins for the environment executor, the policy and the
    schedule, used to run the sampler on concrete inputs. *)

Module Double.

Record env := {
  e_horizon : Z;
  e_space : Space
}.

(** [ve_n] environments ticking together: the observation is the tick
    number, the reward 1, and an episode is done after
    [ve_max_path_length] ticks. *)
Record vec_env := {
  ve_n : nat;
  ve_space : Space;
  ve_max_path_length : Z;
  ve_t : Z
}.

Definition vec_env_new (envs : list env) (max_path_length : Z) : vec_env :=
  {| ve_n := length envs;
     ve_space := match envs with e :: _ => e_space e | [] => OtherSpace "" end;
     ve_max_path_length := max_path_length;
     ve_t := 0 |}.

Definition ticks_step (actions : list pyval) (v : vec_env)
  : (list pyval * list sfloat * list bool * list (gmap string pyval)) * vec_env :=
  let t1 := ve_t v + 1 in
  let d := ve_max_path_length v <=? t1 in
  ((replicate (ve_n v) (VInt t1), replicate (ve_n v) (SInt 1), replicate (ve_n v) d,
    replicate (ve_n v) ∅),
   {| ve_n := ve_n v; ve_space := ve_space v; ve_max_path_length := ve_max_path_length v;
      ve_t := if d then 0 else t1 |}).

Definition ticks_reset (v : vec_env) : list pyval * vec_env :=
  (replicate (ve_n v) (VInt 0),
   {| ve_n := ve_n v; ve_space := ve_space v; ve_max_path_length := ve_max_path_length v;
      ve_t := 0 |}).

(** A policy that answers every step with the step number as action and
    counts how often it was reset. *)
Record policy := {
  p_N : Z;
  p_gamma : sfloat;
  p_obs_history_len : Z;
  p_resets : Z
}.

Definition echo_actions (steps current_episode_steps : list Z)
    (observations : list (list (option pyval)) * list (list (option pyval)))
    (explore : bool) (p : policy)
  : (list pyval * list sfloat * list sfloat * list (gmap string pyval)) * policy :=
  ((map VInt steps, map (fun _ => SInt 0) steps, map (fun _ => SInt 0) steps,
    map (fun _ => ∅) steps), p).

Definition count_reset (p : policy) : policy :=
  {| p_N := p_N p; p_gamma := p_gamma p; p_obs_history_len := p_obs_history_len p;
     p_resets := p_resets p + 1 |}.

(** Sampling an action takes the next draw from the tape. *)
Definition tape_sample (space : Space) (g : list sfloat) : pyval * list sfloat :=
  match g with
  | u :: g' => (VFloat u, g')
  | [] => (VNone, [])
  end.

(** The collaborators over a file system [fs] of pickled rollout files. *)
#[export] Instance collaborators (fs : gmap string (list (gmap string (list pyval))))
  : Collaborators := {|
  Observation := pyval;
  EncodedIm := list (option pyval);
  EncodedVec := list (option pyval);
  Action := pyval;
  InfoVal := pyval;
  RVal := pyval;
  Fname := string;
  EnvSpec := Space;
  Env := env;
  EnvStr := string;
  Params := unit;
  ReplayPool := RingStore.t;
  VecEnvExecutor := vec_env;
  Policy := policy;
  Schedule := sfloat;
  env_spec := e_space;
  env_horizon := e_horizon;
  spec_action_space := id;
  space_sample := tape_sample;
  pickle_loads_dumps := Some;
  create_env := fun _ => None;
  VecEnvExecutor_new := vec_env_new;
  vec_action_space := ve_space;
  vec_current_episode_steps := fun v => replicate (ve_n v) (ve_t v);
  vec_step := ticks_step;
  vec_reset := ticks_reset;
  policy_N := p_N;
  policy_gamma := p_gamma;
  policy_obs_history_len := p_obs_history_len;
  get_actions := echo_actions;
  reset_get_action := count_reset;
  schedule_value := fun s _ => s;
  empty_params := tt;
  ReplayPool_new := fun _ _ n _ size h _ _ _ _ _ => RingStore.new size n h;
  pool_len := RingStore.current_size;
  store_observation := RingStore.store_observation;
  encode_recent_observation := RingStore.encode_recent_observation;
  store_effect := fun a r d info v lp =>
    RingStore.store_effect a (VFloat r) d info (VFloat v) (VFloat lp);
  store_rollout := RingStore.store_rollout;
  trash_current_rollout := RingStore.trash_current_rollout;
  force_done := RingStore.force_done;
  pool_can_sample := RingStore.can_sample;
  mypickle_load_rollouts := fun fname => fs !! fname
|}.

End Double.

(** ** Concrete inputs *)

Module Examples.
Import Double.

Definition policy0 : policy :=
  {| p_N := 3; p_gamma := SInt 1; p_obs_history_len := 4; p_resets := 0 |}.

Definition env_of (space : Space) : env := {| e_horizon := 100; e_space := space |}.

Definition box2 : Space := Box [SInt (-1); SInt 0] [SInt 1; SInt 2].

(** A rollout record of [n] steps whose last step is terminal. *)
Definition rollout_of (n : nat) : gmap string (list pyval) :=
  list_to_map
    [("observations"%string, map (fun i => VInt (Z.of_nat i)) (seq 0 n));
     ("actions"%string, replicate n (VInt 0));
     ("rewards"%string, replicate n (VFloat (SInt 1)));
     ("dones"%string, replicate (pred n) (VBool false) ++ [VBool true]);
     ("logprobs"%string, replicate n (VFloat (SInt 0)));
     ("est_values"%string, replicate n (VFloat SNan));
     ("env_infos"%string, replicate n VNone)].

(** Three rollout files, the second of which cannot be read. *)
Definition three_files : list string := ["a.pkl"; "b.pkl"; "c.pkl"]%string.

Definition two_readable : gmap string (list (gmap string (list pyval))) :=
  list_to_map [("a.pkl"%string, [rollout_of 3]); ("c.pkl"%string, [rollout_of 2])].

(** Two rollout files, of two short rollouts and of one long one. *)
Definition two_files : gmap string (list (gmap string (list pyval))) :=
  list_to_map [("a.pkl"%string, [rollout_of 3; rollout_of 2]);
               ("big.pkl"%string, [rollout_of 10])].

Section OverFiles.
Variable fs : gmap string (list (gmap string (list pyval))).

(** A sampler over one environment, as [__init__] builds it. *)
Definition sampler_over (space : Space) (replay_pool_size max_path_length : Z)
  : Sampler.t (C := collaborators fs) :=
  @Sampler.Build_t symbolic_numpy (collaborators fs)
    policy0 1 [RingStore.new replay_pool_size 3 4]
    (vec_env_new [env_of space] max_path_length) None.

Definition world_of_sampler (s : Sampler.t (C := collaborators fs)) (tape : list sfloat)
  : Sampler.World (C := collaborators fs) :=
  @Sampler.Build_World symbolic_numpy (collaborators fs) s tape [].

(** Run a method and carry on from the world it leaves. *)
Definition and_then {A : Type} (w : Sampler.World (C := collaborators fs))
    (m : Sampler.World (C := collaborators fs) -> Sampler.outcome (C := collaborators fs) A)
  : Sampler.World (C := collaborators fs) :=
  Sampler.world_of (m w).

(** A few [step]s from [step] number [start] on, the policy choosing. *)
Fixpoint steps (n : nat) (start : Z) (w : Sampler.World (C := collaborators fs))
  : Sampler.World (C := collaborators fs) :=
  match n with
  | O => w
  | S n' => steps n' (start + 1) (and_then w (Sampler.step start false true))
  end.

(** An offline evaluation over the same policy and environment. *)
Definition eval_offline : EvalOffline.t (C := collaborators fs) :=
  @EvalOffline.Build_t symbolic_numpy (collaborators fs) (env_of (Discrete 4)) policy0.

End OverFiles.

(** A sampler over one environment whose episodes last a single tick,
    freshly reset. *)
Definition one_tick_world : Sampler.World (C := collaborators ∅) :=
  and_then ∅
    (world_of_sampler ∅ (sampler_over ∅ (Discrete 4) 100 1) [])
    Sampler.reset.

(** An empty sampler over the two rollout files, and the same after
    loading the two short rollouts without a budget (5 steps held). *)
Definition empty_world : Sampler.World (C := collaborators two_files) :=
  world_of_sampler two_files
    (sampler_over two_files (Discrete 4) 100 1000) [].

Definition five_steps_world : Sampler.World (C := collaborators two_files) :=
  and_then two_files empty_world
    (Sampler.add_rollouts (C := collaborators two_files) ["a.pkl"%string] None).

(** The [store_rollout] calls that [add_rollouts] makes on one of the two
    files. *)
Definition stored_by (fname : string) (max_to_add : option Z)
    (w : Sampler.World (C := collaborators two_files))
  : list (nat * Z * gmap string (list (RVal (Collaborators := collaborators two_files)))) :=
  Sampler.store_calls
    (Sampler.new_calls w
       (Sampler.world_of
          (Sampler.add_rollouts (C := collaborators two_files) [fname] max_to_add w))).

(** A freshly reset sampler over one [Discrete] environment, with three
    draws on the random tape. *)
Definition random_world : Sampler.World (C := collaborators ∅) :=
  and_then ∅
    (world_of_sampler ∅ (sampler_over ∅ (Discrete 4) 100 1000)
       [SInt 7; SInt 8; SInt 9])
    Sampler.reset.

(** The same over a [Box] action space and over a space of another kind. *)
Definition box_world : Sampler.World (C := collaborators ∅) :=
  and_then ∅
    (world_of_sampler ∅ (sampler_over ∅ box2 100 1000) [SInt 7; SInt 8; SInt 9])
    Sampler.reset.

Definition other_world : Sampler.World (C := collaborators ∅) :=
  and_then ∅
    (world_of_sampler ∅ (sampler_over ∅ (OtherSpace "Tuple") 100 1000)
       [SInt 7; SInt 8; SInt 9])
    Sampler.reset.

(** A pool that holds the twelve steps, with observations 100 to 111, of
    an episode still open, and a sampler over it that has not been reset. *)
Definition held_pool : RingStore.t :=
  RingStore.ticks 0
    (map (fun i => (VInt (100 + i),
                    (VInt 0, VFloat (SInt 1), false, ∅, VFloat (SInt 0), VFloat (SInt 0))))
       (seqZ 0 12))
    (RingStore.new 100 3 4).

Definition held_world : Sampler.World (C := collaborators ∅) :=
  world_of_sampler ∅
    (@Sampler.Build_t symbolic_numpy (collaborators ∅)
       policy0 1 [held_pool] (vec_env_new [env_of (Discrete 4)] 100) None)
    [].

End Examples.

(** * Properties *)

(** ** List idioms *)

Lemma sumZ_app (l1 l2 : list Z) : sumZ (l1 ++ l2) = sumZ l1 + sumZ l2.
Proof. unfold sumZ. induction l1 as [|x l1 IH]; simpl; [reflexivity | rewrite IH; lia]. Qed.

Lemma np_any_true (bs : list bool) : np_any bs = true <-> true ∈ bs.
Proof.
  unfold np_any. rewrite existsb_exists. split.
  - intros (b & Hin & Hb). unfold id in Hb. subst b. by apply list_elem_of_In.
  - intros Hin. exists true. split; [by apply list_elem_of_In | reflexivity].
Qed.

Lemma length_slice_to {A : Type} (stop : Z) (l : list A) :
  0 <= stop -> len (slice_to stop l) = Z.min stop (len l).
Proof.
  intros Hstop. unfold slice_to, len.
  destruct (stop <? 0) eqn:E; [apply Z.ltb_lt in E; lia |].
  rewrite length_take. lia.
Qed.

Lemma imap_imap {A B D : Type} (f : nat -> B -> D) (g : nat -> A -> B) (l : list A) :
  imap f (imap g l) = imap (fun i x => f i (g i x)) l.
Proof.
  apply list_eq; intros i. rewrite !list_lookup_imap. by destruct (l !! i).
Qed.

Lemma imap_id {A : Type} (l : list A) : imap (fun _ x => x) l = l.
Proof. apply list_eq; intros i. rewrite list_lookup_imap. by destruct (l !! i). Qed.

(** ** EpsilonGreedyStrategy *)

Module EpsilonGreedyStrategyFacts.
Section Facts.
Context {np : NumPy} {C : Collaborators}.
Import EpsilonGreedyStrategy.

(** C8: [add_exploration time action] draws one uniform number [u]; when
    [u] is below the schedule's value at [time] it returns a sample of the
    environment's action space (drawn after [u]), and otherwise it returns
    [action] unchanged, drawing nothing more; [reset] leaves the strategy
    as it is. *)
Theorem add_exploration_epsilon_greedy (self : t) (time : Z) (action : Action)
    (g : RandomState) :
  let u := (np_random_random g).1 in
  let g1 := (np_random_random g).2 in
  let epsilon := schedule_value (schedule self) time in
  ((np_lt u epsilon = true /\
    add_exploration self time action g
    = space_sample (spec_action_space (_env_spec self)) g1)
   \/ (np_lt u epsilon = false /\ add_exploration self time action g = (action, g1)))
  /\ reset self = self.
Proof.
  cbv zeta. unfold add_exploration, reset.
  destruct (np_random_random g) as [u g1]; simpl.
  split; [| reflexivity].
  destruct (np_lt u (schedule_value (schedule self) time)); [left | right]; done.
Qed.

End Facts.
End EpsilonGreedyStrategyFacts.

(** ** Sampler: the loops of [step], [trash_current_rollouts] and [reset] *)

Module SamplerLoops.
Section Facts.
Context {np : NumPy} {C : Collaborators}.
Import Sampler SamplerState.

Lemma store_observations_calls (step : Z) (pools : list ReplayPool) :
  forall (observations : list Observation) (i : nat),
    (store_observations step i pools observations).2
    = concat (imap (fun j o => [CallStoreObservation (i + j) (step + Z.of_nat (i + j)) o;
                                CallEncodeRecentObservation (i + j)])
                   (take (length pools) observations)).
Proof.
  induction pools as [|p pools IH]; intros [|o obs] i; simpl; try reflexivity.
  specialize (IH obs (S i)).
  destruct (store_observations step (S i) pools obs) as [[rest enc] cs]; simpl in *.
  rewrite Nat.add_0_r. do 2 f_equal. rewrite IH. f_equal.
  apply imap_ext; intros j x _; simpl. by rewrite Nat.add_succ_r.
Qed.

Lemma store_observations_length (step : Z) (pools : list ReplayPool) :
  forall (observations : list Observation) (i : nat),
    length (store_observations step i pools observations).1.1 = length pools.
Proof.
  induction pools as [|p pools IH]; intros [|o obs] i; simpl; try reflexivity.
  specialize (IH obs (S i)).
  destruct (store_observations step (S i) pools obs) as [[rest enc] cs]; simpl in *.
  by rewrite IH.
Qed.

Lemma store_effects_calls (pools : list ReplayPool) :
  forall actions rewards dones env_infos est_values logprobs (i : nat),
    (store_effects i pools actions rewards dones env_infos est_values logprobs).2
    = imap (fun j '(a, r, d, info, v, lp) => CallStoreEffect (i + j) a r d info v lp)
           (take (length pools)
                 (zip_effects actions rewards dones env_infos est_values logprobs)).
Proof.
  induction pools as [|p pools IH];
    intros [|a actions] [|r rewards] [|d dones] [|e env_infos] [|v est_values]
           [|lp logprobs] i; simpl; try reflexivity.
  specialize (IH actions rewards dones env_infos est_values logprobs (S i)).
  destruct (store_effects (S i) pools actions rewards dones env_infos est_values logprobs)
    as [rest cs]; simpl in *.
  rewrite Nat.add_0_r. f_equal. rewrite IH.
  apply imap_ext; intros j [[[[[a' r'] d'] e'] v'] lp'] _; simpl. by rewrite Nat.add_succ_r.
Qed.

Lemma trash_pools_spec (pools : list ReplayPool) :
  forall (i : nat) (steps_removed : Z),
    trash_pools i steps_removed pools
    = (steps_removed + sumZ (map (fun p => (trash_current_rollout p).1) pools),
       map (fun p => (trash_current_rollout p).2) pools,
       imap (fun j _ => CallTrashCurrentRollout (i + j)) pools).
Proof.
  induction pools as [|p pools IH]; intros i acc; simpl.
  - f_equal. f_equal. lia.
  - destruct (trash_current_rollout p) as [removed p1] eqn:E; simpl.
    rewrite IH. rewrite Nat.add_0_r. f_equal; [f_equal; lia |].
    f_equal. apply imap_ext; intros j x _; simpl. by rewrite Nat.add_succ_r.
Qed.

Lemma store_observations_pools (step : Z) (pools : list ReplayPool) :
  forall (observations : list Observation) (i : nat),
    (store_observations step i pools observations).1.1
    = imap (fun j p => match observations !! j with
                       | Some o => store_observation (step + Z.of_nat (i + j)) o p
                       | None => p
                       end) pools.
Proof.
  induction pools as [|p pools IH]; intros [|o obs] i; simpl; try reflexivity.
  - f_equal. symmetry. apply imap_id.
  - specialize (IH obs (S i)).
    destruct (store_observations step (S i) pools obs) as [[rest enc] cs]; simpl in *.
    rewrite Nat.add_0_r. f_equal. rewrite IH.
    apply imap_ext; intros j x _; simpl. by rewrite Nat.add_succ_r.
Qed.

Lemma store_observations_encoded (step : Z) (pools : list ReplayPool) :
  forall (observations : list Observation) (i : nat),
    (store_observations step i pools observations).1.2
    = imap (fun j '(p, o) =>
              encode_recent_observation (store_observation (step + Z.of_nat (i + j)) o p))
           (zip pools observations).
Proof.
  induction pools as [|p pools IH]; intros [|o obs] i; simpl; try reflexivity.
  specialize (IH obs (S i)).
  destruct (store_observations step (S i) pools obs) as [[rest enc] cs]; simpl in *.
  rewrite Nat.add_0_r. f_equal. rewrite IH.
  apply imap_ext; intros j [p' o'] _; simpl. by rewrite Nat.add_succ_r.
Qed.

Lemma store_effects_pools (pools : list ReplayPool) :
  forall actions rewards dones env_infos est_values logprobs (i : nat),
    (store_effects i pools actions rewards dones env_infos est_values logprobs).1
    = imap (with_effect (zip_effects actions rewards dones env_infos est_values logprobs))
           pools.
Proof.
  assert (Hid : forall ps : list ReplayPool, ps = imap (with_effect []) ps).
  { intros ps. symmetry. apply imap_id. }
  induction pools as [|p pools IH];
    intros [|a actions] [|r rewards] [|d dones] [|e env_infos] [|v est_values]
           [|lp logprobs] i; try reflexivity; try apply Hid.
  specialize (IH actions rewards dones env_infos est_values logprobs (S i)).
  cbn [store_effects].
  destruct (store_effects (S i) pools actions rewards dones env_infos est_values logprobs)
    as [rest cs]; simpl in *.
  f_equal. exact IH.
Qed.

Lemma update_infos_merged (env_infos action_infos : list Info) :
  update_infos env_infos action_infos = merged_infos env_infos action_infos.
Proof.
  unfold merged_infos. revert action_infos.
  induction env_infos as [|e es IH]; intros [|a acts]; simpl; try reflexivity.
  - f_equal. symmetry. apply imap_id.
  - f_equal. apply IH.
Qed.

Lemma sample_actions_drawn (space : Space) (n : nat) :
  forall g : RandomState,
    sample_actions n space g = (drawn space g n, Nat.iter n (next_random_state space) g).
Proof.
  unfold drawn. induction n as [|n IH]; intros g; [done |].
  cbn [sample_actions]. destruct (space_sample space g) as [a g1] eqn:Hs.
  assert (Hnext : next_random_state space g = g1) by (unfold next_random_state; by rewrite Hs).
  rewrite IH, Nat.iter_succ_r, Hnext. cbn [seq map].
  change (Nat.iter 0 (next_random_state space) g) with g. rewrite Hs. cbn [fst].
  f_equal. f_equal. rewrite <- seq_shift, map_map. apply map_ext. intros i.
  by rewrite Nat.iter_succ_r, Hnext.
Qed.

(** What a call of [step] does when it comes back: the calls it made, in
    order, and the state it leaves. *)
Lemma step_returns (st : Z) (take_random_actions explore : bool) (w w' : World) :
  step st take_random_actions explore w = Return tt w' ->
  exists curr actions est_values logprobs action_infos policy1 g1 cs_act
         next_observations rewards dones env_infos vec_env1,
    _curr_observations (self w) = Some curr
    /\ choose_actions st take_random_actions explore (self w)
         (store_observations st 0 (_replay_pools (self w)) curr).1.2 (random_state w)
       = inr (actions, est_values, logprobs, action_infos, policy1, g1, cs_act)
    /\ vec_step actions (_vec_env (self w))
       = ((next_observations, rewards, dones, env_infos), vec_env1)
    /\ calls w'
       = calls w
         ++ observation_calls st (take (length (_replay_pools (self w))) curr)
         ++ cs_act
         ++ [CallVecEnvStep actions]
         ++ (if np_any dones then [CallResetGetAction] else [])
         ++ effect_calls
              (take (length (_replay_pools (self w)))
                 (zip_effects actions rewards dones (update_infos env_infos action_infos)
                    est_values logprobs))
    /\ _curr_observations (self w') = Some next_observations
    /\ _vec_env (self w') = vec_env1
    /\ _policy (self w') = (if np_any dones then reset_get_action policy1 else policy1)
    /\ random_state w' = g1
    /\ _replay_pools (self w')
       = imap (fun i p =>
                 with_effect (zip_effects actions rewards dones
                                (merged_infos env_infos action_infos) est_values logprobs) i
                   (observed st curr i p))
              (_replay_pools (self w))
    /\ _n_envs (self w') = _n_envs (self w).
Proof.
  unfold step. destruct (_curr_observations (self w)) as [curr|] eqn:Hcurr; [| done].
  pose proof (store_observations_calls st (_replay_pools (self w)) curr 0) as Hcs1.
  pose proof (store_observations_length st (_replay_pools (self w)) curr 0) as Hlen1.
  pose proof (store_observations_pools st (_replay_pools (self w)) curr 0) as Hp1.
  destruct (store_observations st 0 (_replay_pools (self w)) curr)
    as [[pools1 encoded] cs1] eqn:Hso.
  simpl in Hcs1, Hlen1, Hp1.
  destruct (choose_actions st take_random_actions explore (self w) encoded (random_state w))
    as [[[e g1] cs2] | [[[[[[actions est_values] logprobs] action_infos] policy1] g1] cs2]]
    eqn:Hchoose; [done |].
  destruct (vec_step actions (_vec_env (self w)))
    as [[[[next_observations rewards] dones] env_infos] vec_env1] eqn:Hstep.
  pose proof (store_effects_calls pools1 actions rewards dones
                (update_infos env_infos action_infos) est_values logprobs 0) as Hcs4.
  pose proof (store_effects_pools pools1 actions rewards dones
                (update_infos env_infos action_infos) est_values logprobs 0) as Hp2.
  destruct (store_effects 0 pools1 actions rewards dones
              (update_infos env_infos action_infos) est_values logprobs) as [pools2 cs4].
  simpl in Hcs4, Hp2. rewrite Hlen1 in Hcs4.
  assert (Hpools : pools2
                   = imap (fun i p =>
                             with_effect (zip_effects actions rewards dones
                                            (merged_infos env_infos action_infos)
                                            est_values logprobs) i
                               (observed st curr i p))
                          (_replay_pools (self w))).
  { rewrite Hp2, Hp1, imap_imap, update_infos_merged. by apply imap_ext. }
  destruct (np_any dones) eqn:Hany; intros [= <-]; simpl;
    exists curr, actions, est_values, logprobs, action_infos, policy1, g1, cs2,
           next_observations, rewards, dones, env_infos, vec_env1;
    rewrite Hso, Hcs1, Hcs4, ?Hany; unfold observation_calls, effect_calls; done.
Qed.

(** What the "get actions" part hands on, in the collaborators' own
    operations. *)
Lemma choose_actions_spec (st : Z) (take_random_actions explore : bool) (s : t)
    (encoded : list (EncodedIm * EncodedVec)) (g : RandomState)
    actions est_values logprobs action_infos policy1 g1 cs :
  choose_actions st take_random_actions explore s encoded g
  = inr (actions, est_values, logprobs, action_infos, policy1, g1, cs) ->
  let n := Z.to_nat (_n_envs s) in
  let space := vec_action_space (_vec_env s) in
  if take_random_actions
  then actions = drawn space g n
       /\ g1 = Nat.iter n (next_random_state space) g
       /\ est_values = replicate n np_nan
       /\ action_infos = replicate n ∅
       /\ policy1 = _policy s
       /\ exists logprob, random_logprob space = Ok logprob /\ logprobs = replicate n logprob
  else get_actions (seqZ st (_n_envs s)) (vec_current_episode_steps (_vec_env s))
         (map fst encoded, map snd encoded) explore (_policy s)
       = ((actions, est_values, logprobs, action_infos), policy1)
       /\ g1 = g.
Proof.
  cbv zeta. unfold choose_actions. destruct take_random_actions.
  - rewrite sample_actions_drawn.
    destruct (random_logprob _) as [logprob|] eqn:Hlp; [| done].
    intros [= <- <- <- <- <- <- <-]. repeat split; try done. by exists logprob.
  - destruct (get_actions _ _ _ _ _) as [[[[acts vs] lps] infos] pol].
    by intros [= <- <- <- <- <- <- <-].
Qed.


End Facts.
End SamplerLoops.

Module SamplerCalls.
Section Facts.
Context {np : NumPy} {C : Collaborators}.
Import Sampler SamplerLoops.

Lemma new_calls_app (w w' : World) (cs : list Call) :
  calls w' = calls w ++ cs -> new_calls w w' = cs.
Proof. intros E. unfold new_calls. rewrite E. by rewrite drop_app_length. Qed.


Lemma observation_calls_not_env_step (st : Z) (observations : list Observation) :
  Forall (fun c => is_env_step_call c = false) (observation_calls st observations).
Proof.
  unfold observation_calls. apply Forall_concat, Forall_forall.
  intros cs [i [o [-> _]]]%elem_of_lookup_imap. by repeat constructor.
Qed.

Lemma effect_calls_are_effects (effects : list (Action * float * bool * Info * float * float)) :
  Forall (fun c => is_effect_call c = true) (effect_calls effects).
Proof.
  unfold effect_calls. apply Forall_forall.
  intros c [i [[[[[[a r] d] info] v] lp] [-> _]]]%elem_of_lookup_imap. done.
Qed.

Lemma observation_calls_not_effects (st : Z) (observations : list Observation) :
  Forall (fun c => is_effect_call c = false) (observation_calls st observations).
Proof.
  unfold observation_calls. apply Forall_concat, Forall_forall.
  intros cs [i [o [-> _]]]%elem_of_lookup_imap. by repeat constructor.
Qed.

(** The calls the "get actions" part makes, and what it hands on when the
    actions are random. *)
Lemma choose_actions_calls (st : Z) (take_random_actions explore : bool) (s : t)
    (encoded : list (EncodedIm * EncodedVec)) (g : RandomState)
    actions est_values logprobs action_infos policy1 g1 cs :
  choose_actions st take_random_actions explore s encoded g
  = inr (actions, est_values, logprobs, action_infos, policy1, g1, cs) ->
  cs = (if take_random_actions
        then replicate (Z.to_nat (_n_envs s)) CallActionSpaceSample
        else [CallGetActions (seqZ st (_n_envs s)) explore]).
Proof.
  unfold choose_actions. destruct take_random_actions.
  - destruct (sample_actions _ _ g) as [acts g2].
    destruct (random_logprob _); [| done]. by intros [= <- <- <- <- <- <- <-].
  - destruct (get_actions _ _ _ _ _) as [[[[acts vs] lps] infos] pol].
    by intros [= <- <- <- <- <- <- <-].
Qed.

(** [step] comes back whenever the current observations are set and the
    actions could be chosen. *)
Lemma step_total (st : Z) (take_random_actions explore : bool) (w : World)
    (curr : list Observation) chosen :
  _curr_observations (self w) = Some curr ->
  choose_actions st take_random_actions explore (self w)
    (store_observations st 0 (_replay_pools (self w)) curr).1.2 (random_state w)
  = inr chosen ->
  exists w', step st take_random_actions explore w = Return tt w'.
Proof.
  intros Hcurr Hchoose. unfold step. rewrite Hcurr.
  destruct (store_observations st 0 (_replay_pools (self w)) curr) as [[pools1 encoded] cs1].
  simpl in Hchoose. rewrite Hchoose.
  destruct chosen as [[[[[[actions est_values] logprobs] action_infos] policy1] g1] cs2].
  destruct (vec_step actions (_vec_env (self w)))
    as [[[[next_observations rewards] dones] env_infos] vec_env1].
  destruct (np_any dones);
    destruct (store_effects 0 pools1 actions rewards dones
                (update_infos env_infos action_infos) est_values logprobs);
    by eexists.
Qed.

Lemma choose_actions_random (st : Z) (explore : bool) (s : t)
    (encoded : list (EncodedIm * EncodedVec)) (g : RandomState) :
  let n := Z.to_nat (_n_envs s) in
  let space := vec_action_space (_vec_env s) in
  choose_actions st true explore s encoded g
  = match random_logprob space with
    | Ok logprob =>
        inr ((sample_actions n space g).1, replicate n np_nan, replicate n logprob,
             replicate n ∅, _policy s, (sample_actions n space g).2,
             replicate n CallActionSpaceSample)
    | Err e => inl (e, (sample_actions n space g).2, replicate n CallActionSpaceSample)
    end.
Proof.
  cbv zeta. unfold choose_actions.
  destruct (sample_actions _ _ g) as [acts g1]. by destruct (random_logprob _).
Qed.

Lemma zip_effects_lookup actions rewards dones env_infos est_values logprobs
    (i : nat) a r d info v lp :
  zip_effects actions rewards dones env_infos est_values logprobs !! i
  = Some (a, r, d, info, v, lp) ->
  actions !! i = Some a /\ rewards !! i = Some r /\ dones !! i = Some d
  /\ env_infos !! i = Some info /\ est_values !! i = Some v /\ logprobs !! i = Some lp.
Proof.
  unfold zip_effects. intros Hz.
  apply lookup_zip_with_Some in Hz as (a' & [r' [d' [info' [v' lp']]]] & E & Ha & Hrest).
  injection E as -> -> -> -> -> ->.
  apply lookup_zip_with_Some in Hrest as (? & ? & [= <- <-] & Hr & Hrest).
  apply lookup_zip_with_Some in Hrest as (? & ? & [= <- <-] & Hd & Hrest).
  apply lookup_zip_with_Some in Hrest as (? & ? & [= <- <-] & Hi & Hrest).
  apply lookup_zip_with_Some in Hrest as (? & ? & [= <- <-] & Hv & Hlp).
  done.
Qed.

(** A log made of calls that neither notify nor store effects, then at most
    one notification, then effects only, notifies before it stores. *)
Lemma notified_before_effects_app (pre mid post : list Call) :
  Forall (fun c => c <> CallResetGetAction /\ is_effect_call c = false) pre ->
  mid = [] \/ mid = [CallResetGetAction] ->
  Forall (fun c => is_effect_call c = true) post ->
  notified_before_effects (pre ++ mid ++ post).
Proof.
  intros Hpre Hmid Hpost i j c Hi Hj Hc.
  rewrite Forall_lookup in Hpre. rewrite Forall_lookup in Hpost.
  apply lookup_app_Some in Hj as [Hj | [Hj1 Hj]].
  { destruct (Hpre _ _ Hj) as [_ E]. congruence. }
  apply lookup_app_Some in Hj as [Hj | [Hj2 Hj]].
  { destruct Hmid as [-> | ->]; [done |].
    apply list_lookup_singleton_Some in Hj as [_ <-]. done. }
  apply lookup_app_Some in Hi as [Hi | [Hi1 Hi]].
  { apply lookup_lt_Some in Hi. lia. }
  apply lookup_app_Some in Hi as [Hi | [Hi2 Hi]].
  { apply lookup_lt_Some in Hi. lia. }
  specialize (Hpost _ _ Hi). done.
Qed.

End Facts.
End SamplerCalls.

(** ** RingStore: the history view after [force_done] *)

Module RingStoreFacts.
Import RingStore.

Lemma ring_position_back (c pos : Z) :
  0 < c -> 0 <= pos < c -> ((pos + 1) mod c - 1 - 0) mod c = pos.
Proof.
  intros Hc Hpos. destruct (decide (pos + 1 < c)) as [Hlt | Hge].
  - rewrite (Z.mod_small (pos + 1)) by lia.
    replace (pos + 1 - 1 - 0) with pos by lia. apply Z.mod_small. lia.
  - replace (pos + 1) with c by lia. rewrite Z.mod_same by lia.
    symmetry. apply (Z.mod_unique _ _ (-1)); lia.
Qed.

Lemma open_steps_force_done (p : t) : open_steps (force_done p) = 0.
Proof. unfold force_done. destruct (open_steps p =? 0) eqn:E; [by apply Z.eqb_eq | done]. Qed.

Lemma capacity_force_done (p : t) : capacity (force_done p) = capacity p.
Proof. unfold force_done. by destruct (open_steps p =? 0). Qed.

Lemma H_force_done (p : t) : H (force_done p) = H p.
Proof. unfold force_done. by destruct (open_steps p =? 0). Qed.

Lemma map_reverse_none {A : Type} (f : nat -> option A) (l : list nat) :
  (forall j, j ∈ l -> f j = None) -> map f (reverse l) = replicate (length l) None.
Proof.
  intros Hf. rewrite <- (length_reverse l).
  assert (Hr : forall j, j ∈ reverse l -> f j = None)
    by (intros j Hj; apply Hf; by apply elem_of_reverse).
  induction (reverse l) as [|j r IH]; [done |]. simpl.
  rewrite Hr by apply list_elem_of_here. f_equal.
  apply IH. intros k Hk. apply Hr. by apply list_elem_of_further.
Qed.

(** In the ring store of the spec, the history view of the first
    observation stored after [force_done] holds that observation alone: all
    earlier frames are zero, whatever the store held before. *)
Lemma force_done_cuts_history (p : t) (step : Z) (o : pyval) :
  0 < capacity p -> 0 < H p ->
  frames (store_observation step o (force_done p))
  = replicate (Z.to_nat (H p - 1)) None ++ [Some o].
Proof.
  intros Hc Hh. unfold frames, store_observation, write. simpl.
  rewrite open_steps_force_done, H_force_done. unfold ring_position. simpl.
  rewrite capacity_force_done.
  replace (Z.to_nat (H p)) with (S (Z.to_nat (H p - 1))) by lia.
  generalize (Z.to_nat (H p - 1)). intros n.
  change (seq 0 (S n)) with (0%nat :: seq 1 n). rewrite reverse_cons, map_app. simpl.
  rewrite ring_position_back; [| done | by apply Z.mod_pos_bound].
  rewrite lookup_insert_eq. simpl. f_equal.
  rewrite map_reverse_none; [by rewrite length_seq |].
  intros j Hj. apply elem_of_seq in Hj.
  destruct (Z.of_nat j <? 0 + 1) eqn:E; [apply Z.ltb_lt in E; lia | done].
Qed.












End RingStoreFacts.

(** ** Sampler over the ring store: a run of steps is a run of ticks *)

Module SamplerOverRingStore.
Import Sampler SamplerState SamplerLoops SamplerCalls Double.
Section Facts.
Variable fs : gmap string (list (gmap string (list pyval))).



End Facts.
End SamplerOverRingStore.

(** ** Sampler: the claims about single methods *)

Module SamplerFacts.
Section Facts.
Context {np : NumPy} {C : Collaborators}.
Import Sampler SamplerState SamplerLoops SamplerCalls.

(** C9: [can_sample] is true exactly when at least one replay pool can be
    sampled, and false exactly when none of them can. *)
Theorem can_sample_any (s : t) :
  (can_sample s = true <-> exists p, p ∈ _replay_pools s /\ pool_can_sample p = true)
  /\ (can_sample s = false <-> forall p, p ∈ _replay_pools s -> pool_can_sample p = false).
Proof.
  assert (Htrue : can_sample s = true
                  <-> exists p, p ∈ _replay_pools s /\ pool_can_sample p = true).
  { unfold can_sample. rewrite np_any_true, list_elem_of_fmap. split.
    - intros (p & E & Hp). eauto.
    - intros (p & Hp & E). eauto. }
  split; [exact Htrue |].
  rewrite <- not_true_iff_false, Htrue. split.
  - intros Hno p Hp. destruct (pool_can_sample p) eqn:E; [| done].
    exfalso. apply Hno. eauto.
  - intros Hall (p & Hp & E). specialize (Hall p Hp). congruence.
Qed.

(** C6: [trash_current_rollouts] returns the sum of what each pool's
    [trash_current_rollout] returns, having called it once on every pool in
    order.  On the ring store of the spec: after an episode of 10 steps has
    closed and 7 more steps have been taken without reaching a terminal
    one, it returns 7 and leaves [head] and [current_size] where they were
    before those 7 steps. *)
Theorem trash_current_rollouts_sum (w : World) :
  (exists w',
      trash_current_rollouts w
      = Return (sumZ (map (fun p => (trash_current_rollout p).1) (_replay_pools (self w)))) w'
      /\ _replay_pools (self w')
         = map (fun p => (trash_current_rollout p).2) (_replay_pools (self w))
      /\ new_calls w w' = imap (fun i _ => CallTrashCurrentRollout i) (_replay_pools (self w)))
  /\ (let w0 := Examples.world_of_sampler ∅ (Examples.sampler_over ∅ (Discrete 4) 100 10) [] in
      let w10 := Examples.steps ∅ 10 0 (Examples.and_then ∅ w0 reset) in
      let w17 := Examples.steps ∅ 7 10 w10 in
      map RingStore.open_steps (_replay_pools (self w10)) = [0]
      /\ map RingStore.open_steps (_replay_pools (self w17)) = [7]
      /\ returned (trash_current_rollouts w17) = Some 7
      /\ map RingStore.head (_replay_pools (self (world_of (trash_current_rollouts w17))))
         = map RingStore.head (_replay_pools (self w10))
      /\ map RingStore.current_size
           (_replay_pools (self (world_of (trash_current_rollouts w17))))
         = map RingStore.current_size (_replay_pools (self w10))).
Proof.
  split.
  - unfold trash_current_rollouts. rewrite trash_pools_spec. eexists. split; [reflexivity |].
    split; [reflexivity |]. apply new_calls_app. simpl. reflexivity.
  - repeat split; reflexivity.
Qed.


(** C4 (as amended): the constructor asserts [n_envs == 1].  With one
    environment it builds exactly one replay pool, of capacity
    [replay_pool_size // 1 = replay_pool_size], and a vector executor over
    that environment; with any other number it raises [AssertionError].
    Every [step] that comes back has stepped the executor exactly once: it
    made one [step] call on it, and the executor and the current
    observations it leaves are the ones that call returned. *)
Theorem init_single_environment (policy : Policy) (env : Env)
    (k replay_pool_size max_path_length : Z) (sampling_method : string)
    (save_rollouts save_rollouts_observations save_env_infos : bool)
    (env_str : option EnvStr) (replay_pool_params : Params) :
  (k <> 1 ->
   __init__ policy env k replay_pool_size max_path_length sampling_method save_rollouts
     save_rollouts_observations save_env_infos env_str replay_pool_params
   = Err AssertionError)
  /\ (k = 1 ->
      __init__ policy env k replay_pool_size max_path_length sampling_method save_rollouts
        save_rollouts_observations save_env_infos env_str replay_pool_params
      = Ok {| _policy := policy;
              _n_envs := 1;
              _replay_pools :=
                [ReplayPool_new (env_spec env) (env_horizon env) (policy_N policy)
                   (policy_gamma policy) replay_pool_size (policy_obs_history_len policy)
                   sampling_method save_rollouts save_rollouts_observations save_env_infos
                   replay_pool_params];
              _vec_env := VecEnvExecutor_new [env] max_path_length;
              _curr_observations := None |})
  /\ (forall st take_random_actions explore w w',
        step st take_random_actions explore w = Return tt w' ->
        length (filter (fun c => is_env_step_call c = true) (new_calls w w')) = 1%nat
        /\ exists actions,
            filter (fun c => is_env_step_call c = true) (new_calls w w')
            = [CallVecEnvStep actions]
            /\ _vec_env (self w') = (vec_step actions (_vec_env (self w))).2
            /\ _curr_observations (self w')
               = Some (vec_step actions (_vec_env (self w))).1.1.1.1).
Proof.
  split; [| split].
  - intros Hk. unfold __init__. destruct (k =? 1) eqn:E; [| reflexivity].
    apply Z.eqb_eq in E. contradiction.
  - intros ->. unfold __init__. simpl. by rewrite Z.div_1_r.
  - intros st rnd ex w w' Hstep.
    destruct (step_returns st rnd ex w w' Hstep)
      as (curr & actions & vs & lps & ainfos & pol1 & g1 & cs_act & next & rewards & dones
          & infos & venv1 & Hcurr & Hchoose & Hvec & Hcalls & Hnext & Hvenv & _).
    rewrite (new_calls_app _ _ _ Hcalls).
    pose proof (choose_actions_calls _ _ _ _ _ _ _ _ _ _ _ _ _ Hchoose) as Hact.
    assert (Hnone : forall cs, Forall (fun c => is_env_step_call c = false) cs ->
                               filter (fun c => is_env_step_call c = true) cs = []).
    { intros cs Hcs. induction Hcs as [|c cs Hc _ IH]; [reflexivity |].
      rewrite filter_cons. destruct (decide (is_env_step_call c = true)); [congruence | done]. }
    assert (Hfilter : filter (fun c => is_env_step_call c = true)
                        (observation_calls st (take (length (_replay_pools (self w))) curr)
                         ++ cs_act ++ [CallVecEnvStep actions]
                         ++ (if np_any dones then [CallResetGetAction] else [])
                         ++ effect_calls
                              (take (length (_replay_pools (self w)))
                                 (zip_effects actions rewards dones (update_infos infos ainfos)
                                    vs lps)))
                      = [CallVecEnvStep actions]).
    { rewrite !filter_app.
      rewrite (Hnone _ (observation_calls_not_env_step _ _)).
      rewrite (Hnone cs_act).
      2:{ subst cs_act. destruct rnd; [apply Forall_replicate | repeat constructor]; done. }
      rewrite (Hnone (if np_any dones then _ else _)).
      2:{ destruct (np_any dones); repeat constructor. }
      rewrite (Hnone (effect_calls _)).
      2:{ eapply Forall_impl; [apply effect_calls_are_effects |]. by intros []. }
      reflexivity. }
    rewrite Hfilter. split; [reflexivity |].
    exists actions. rewrite Hvec, Hnext, Hvenv. done.
Qed.

(** C1 (as amended): a [step] that comes back has made one control tick in
    this order: the current observation of every environment is stored in
    its pool and the encoded view read; then the actions are obtained, from
    the policy in one call on these views or by one random sample per
    environment; then the environments are stepped with these actions; then,
    if any environment reports done, the policy's [reset_get_action] is
    called; and last the effects are stored, pool by pool.  So the policy is
    notified before the effects are stored.  Afterwards pool [i] holds the
    observation of environment [i] and then its effect, the executor is the
    one the step returned, the policy is the one that answered (reset when
    an environment was done), and the observations the environments returned
    are the current ones. *)
Theorem step_call_order (st : Z) (take_random_actions explore : bool) (w w' : World) :
  step st take_random_actions explore w = Return tt w' ->
  let pools := _replay_pools (self w) in
  let n := Z.to_nat (_n_envs (self w)) in
  let space := vec_action_space (_vec_env (self w)) in
  exists curr actions est_values logprobs action_infos policy1
         next_observations rewards dones env_infos vec_env1,
    _curr_observations (self w) = Some curr
    /\ (if take_random_actions
        then actions = drawn space (random_state w) n
             /\ random_state w' = Nat.iter n (next_random_state space) (random_state w)
             /\ est_values = replicate n np_nan
             /\ action_infos = replicate n ∅
             /\ policy1 = _policy (self w)
             /\ exists logprob, logprobs = replicate n logprob
        else get_actions (seqZ st (_n_envs (self w)))
               (vec_current_episode_steps (_vec_env (self w)))
               (map fst (encodings st pools curr), map snd (encodings st pools curr))
               explore (_policy (self w))
             = ((actions, est_values, logprobs, action_infos), policy1)
             /\ random_state w' = random_state w)
    /\ vec_step actions (_vec_env (self w))
       = ((next_observations, rewards, dones, env_infos), vec_env1)
    /\ new_calls w w'
       = observation_calls st (take (length pools) curr)
         ++ (if take_random_actions
             then replicate n CallActionSpaceSample
             else [CallGetActions (seqZ st (_n_envs (self w))) explore])
         ++ [CallVecEnvStep actions]
         ++ (if np_any dones then [CallResetGetAction] else [])
         ++ effect_calls
              (take (length pools)
                 (zip_effects actions rewards dones (merged_infos env_infos action_infos)
                    est_values logprobs))
    /\ notified_before_effects (new_calls w w')
    /\ _replay_pools (self w')
       = imap (fun i p =>
                 with_effect (zip_effects actions rewards dones
                                (merged_infos env_infos action_infos) est_values logprobs) i
                   (observed st curr i p))
              pools
    /\ _vec_env (self w') = vec_env1
    /\ _policy (self w') = (if np_any dones then reset_get_action policy1 else policy1)
    /\ _curr_observations (self w') = Some next_observations
    /\ _n_envs (self w') = _n_envs (self w).
Proof.
  intros Hstep. cbv zeta.
  destruct (step_returns st take_random_actions explore w w' Hstep)
    as (curr & actions & vs & lps & ainfos & pol1 & g1 & cs_act & next & rewards & dones
        & infos & venv1 & Hcurr & Hchoose & Hvec & Hcalls & Hnext & Hvenv & Hpol & Hrand
        & Hpools & Hn).
  exists curr, actions, vs, lps, ainfos, pol1, next, rewards, dones, infos, venv1.
  pose proof (choose_actions_calls _ _ _ _ _ _ _ _ _ _ _ _ _ Hchoose) as Hact.
  pose proof (choose_actions_spec _ _ _ _ _ _ _ _ _ _ _ _ _ Hchoose) as Hspec.
  cbv zeta in Hspec.
  rewrite (store_observations_encoded st (_replay_pools (self w)) curr 0) in Hspec.
  fold (encodings st (_replay_pools (self w)) curr) in Hspec.
  rewrite update_infos_merged in Hcalls.
  apply new_calls_app in Hcalls. rewrite Hcalls, <- Hact.
  split; [done |]. split.
  { destruct take_random_actions.
    - destruct Hspec as (-> & Hg & -> & -> & -> & logprob & _ & ->).
      rewrite Hrand. repeat split; try done. by exists logprob.
    - destruct Hspec as [Hget ->]. by rewrite Hrand. }
  split; [done |]. split; [done |]. split; [| done].
  assert (Hassoc : forall a b c m e : list Call,
             a ++ b ++ c ++ m ++ e = (a ++ b ++ c) ++ m ++ e)
    by (intros; by rewrite <- !(assoc_L (++))).
  rewrite Hassoc. apply notified_before_effects_app.
  - rewrite !Forall_app. repeat split.
    + unfold observation_calls. apply Forall_concat, Forall_forall.
      intros cs [i [o [-> _]]]%elem_of_lookup_imap. by repeat constructor.
    + rewrite Hact. destruct take_random_actions;
        [apply Forall_replicate | apply Forall_singleton]; by split.
    + apply Forall_singleton. by split.
  - destruct (np_any dones); auto.
  - apply effect_calls_are_effects.
Qed.

(** C10: with [take_random_actions] set, [step] draws one action per
    environment with the action space's [sample], one after the other on the
    random state, steps the environments with these actions, and every
    effect it stores carries the sampled action, a NaN value estimate and the
    uniform log-probability: [-log(flat_dim)] over a [Discrete] space,
    [-sum(log(high - low))] over a [Box]; these effects are what the pools
    hold afterwards, each on top of the observation stored before.  Over any
    other space it raises [NotImplementedError]. *)
Theorem step_random_actions (st : Z) (explore : bool) (w : World) (curr : list Observation) :
  _curr_observations (self w) = Some curr ->
  let space := vec_action_space (_vec_env (self w)) in
  let n := Z.to_nat (_n_envs (self w)) in
  let pools := _replay_pools (self w) in
  let k := length pools in
  let sampled := drawn space (random_state w) n in
  let stores (logprob : float) : Prop :=
    exists w' next_observations rewards dones env_infos vec_env1,
      step st true explore w = Return tt w'
      /\ vec_step sampled (_vec_env (self w))
         = ((next_observations, rewards, dones, env_infos), vec_env1)
      /\ new_calls w w'
         = observation_calls st (take k curr)
           ++ replicate n CallActionSpaceSample
           ++ [CallVecEnvStep sampled]
           ++ (if np_any dones then [CallResetGetAction] else [])
           ++ effect_calls
                (take k (zip_effects sampled rewards dones env_infos
                           (replicate n np_nan) (replicate n logprob)))
      /\ (forall i a r d info v lp,
             CallStoreEffect i a r d info v lp ∈ new_calls w w' ->
             sampled !! i = Some a /\ v = np_nan /\ lp = logprob)
      /\ _replay_pools (self w')
         = imap (fun i p =>
                   with_effect (zip_effects sampled rewards dones env_infos
                                  (replicate n np_nan) (replicate n logprob)) i
                     (observed st curr i p))
                pools
      /\ random_state w' = Nat.iter n (next_random_state space) (random_state w)
      /\ _vec_env (self w') = vec_env1
      /\ _curr_observations (self w') = Some next_observations in
  (forall flat_dim, space = Discrete flat_dim -> stores (np_neg (np_log (np_float flat_dim))))
  /\ (forall low high, space = Box low high ->
        stores (np_neg (np_sum (map np_log (zip_with np_sub high low)))))
  /\ (forall name, space = OtherSpace name ->
        raised (step st true explore w) = Some NotImplementedError).
Proof.
  intros Hcurr space n pools k sampled stores.
  assert (Hmerge : forall infos : list Info, merged_infos infos (replicate n ∅) = infos).
  { intros infos. unfold merged_infos. rewrite <- (imap_id infos) at 2.
    apply imap_ext. intros i info _. simpl.
    destruct (replicate n ∅ !! i) as [ainfo|] eqn:E; [| done].
    apply lookup_replicate in E as [-> _]. by rewrite (left_id_L ∅ (∪)). }
  assert (Hstores : forall logprob, random_logprob space = Ok logprob -> stores logprob).
  { intros logprob Hlp.
    pose proof (choose_actions_random st explore (self w)
                  (store_observations st 0 (_replay_pools (self w)) curr).1.2
                  (random_state w)) as Hchoose.
    cbv zeta in Hchoose. fold space n in Hchoose. rewrite Hlp in Hchoose.
    rewrite sample_actions_drawn in Hchoose. cbn [fst snd] in Hchoose.
    fold sampled in Hchoose.
    destruct (step_total st true explore w curr _ Hcurr Hchoose) as [w' Hstep].
    destruct (step_returns st true explore w w' Hstep)
      as (curr' & actions & vs & lps & ainfos & pol1 & g1 & cs_act & next & rewards & dones
          & infos & venv1 & Hcurr' & Hchoose' & Hvec & Hcalls & Hnext & Hvenv & _ & Hrand
          & Hpools & _).
    rewrite Hcurr in Hcurr'. injection Hcurr' as <-.
    rewrite Hchoose in Hchoose'. injection Hchoose' as <- <- <- <- <- <- <-.
    rewrite update_infos_merged, Hmerge in Hcalls. rewrite Hmerge in Hpools.
    apply new_calls_app in Hcalls.
    exists w', next, rewards, dones, infos, venv1.
    split; [done |]. split; [done |]. split; [done |].
    split; [| by rewrite Hrand].
    intros i a r d info v lp Hin. rewrite Hcalls in Hin.
    rewrite !elem_of_app in Hin. destruct Hin as [Hin | [Hin | [Hin | [Hin | Hin]]]].
    - pose proof (observation_calls_not_effects st (take k curr)) as Hno.
      rewrite Forall_forall in Hno. specialize (Hno _ Hin). done.
    - apply elem_of_replicate in Hin as [? _]. done.
    - apply list_elem_of_singleton in Hin. done.
    - destruct (np_any dones); [apply list_elem_of_singleton in Hin | apply elem_of_nil in Hin];
        done.
    - apply elem_of_lookup_imap in Hin as (j & [[[[[a' r'] d'] info'] v'] lp'] & E & Hj).
      injection E as -> -> -> -> -> -> ->.
      apply lookup_take_Some in Hj as [Hj _].
      apply zip_effects_lookup in Hj as (Ha & _ & _ & _ & Hv & Hlp').
      apply lookup_replicate in Hv as [-> _].
      apply lookup_replicate in Hlp' as [-> _]. done. }
  split; [| split].
  - intros flat_dim E. apply Hstores. by rewrite E.
  - intros low high E. apply Hstores. by rewrite E.
  - intros name E. unfold step. rewrite Hcurr.
    destruct (store_observations st 0 (_replay_pools (self w)) curr) as [[pools1 encoded] cs1].
    pose proof (choose_actions_random st explore (self w) encoded (random_state w)) as Hchoose.
    cbv zeta in Hchoose. rewrite Hchoose. unfold space in E. rewrite E. reflexivity.
Qed.

End Facts.
End SamplerFacts.

(** ** Sampler.add_rollouts *)

Module AddRolloutsFacts.
Section Facts.
Context {np : NumPy} {C : Collaborators}.
Import Sampler SamplerState SamplerCalls.

Lemma NoDup_trimmed_keys : NoDup trimmed_keys.
Proof. apply (bool_decide_unpack _). by vm_compute. Qed.

Lemma trim_rollout_is_cut (diff : Z) (keys : list string) :
  NoDup keys ->
  forall rollout cut : Rollout,
    trim_rollout diff keys rollout = Ok cut ->
    (forall k, k ∈ keys -> cut !! k = slice_to diff <$> rollout !! k)
    /\ (forall k, k ∉ keys -> cut !! k = rollout !! k).
Proof.
  induction 1 as [|k0 keys Hk0 Hnd IH]; intros rollout cut; simpl.
  - intros [= <-]. split; [intros k Hk; by apply elem_of_nil in Hk | done].
  - destruct (rollout !! k0) as [arr|] eqn:E; [| done]. intros Htrim.
    destruct (IH _ _ Htrim) as [Hin Hout]. split.
    + intros k [-> | Hk]%elem_of_cons.
      * rewrite (Hout _ Hk0), lookup_insert_eq, E. done.
      * rewrite (Hin _ Hk). rewrite lookup_insert_ne; [done |]. by intros ->.
    + intros k Hk. apply not_elem_of_cons in Hk as [Hne Hk].
      rewrite (Hout _ Hk). by rewrite lookup_insert_ne.
Qed.

Lemma store_calls_app (cs1 cs2 : list Call) :
  store_calls (cs1 ++ cs2) = store_calls cs1 ++ store_calls cs2.
Proof. apply omap_app. Qed.

Lemma stored_steps_app {A : Type} (sc1 sc2 : list (A * Rollout)) :
  stored_steps (sc1 ++ sc2) = stored_steps sc1 + stored_steps sc2.
Proof. unfold stored_steps. by rewrite map_app, sumZ_app. Qed.

Lemma chained_snoc (s0 : Z) (k : nat) (sc : list (nat * Z * Rollout)) (rollout : Rollout) :
  chained s0 k sc ->
  chained s0 k (sc ++ [((length sc mod k)%nat, s0 + stored_steps sc, rollout)]).
Proof.
  intros Hsc j i start r Hj.
  apply lookup_app_Some in Hj as [Hj | [Hge Hj]].
  - destruct (Hsc _ _ _ _ Hj) as [-> ->]. split; [| done].
    rewrite take_app_le; [done |]. apply lookup_lt_Some in Hj. lia.
  - apply list_lookup_singleton_Some in Hj as [Hj0 [= <- <- <-]].
    assert (j = length sc) as -> by lia.
    by rewrite take_app_length.
Qed.

Lemma add_file_consistent (s0 : Z) (k : nat) (max_to_add : option Z) (rollouts : list Rollout) :
  forall st, consistent s0 k st -> consistent s0 k (add_file max_to_add rollouts st).2.
Proof.
  induction rollouts as [|rollout rollouts IH]; intros st Hst; simpl; [done |].
  destruct (a_pools st) as [|p ps] eqn:Hpools; [done |]. rewrite <- Hpools.
  destruct (rollout !! "dones"%string) as [dones|] eqn:Hdones; [| done].
  assert (Hcut : forall rollout1 done_adding r_len1,
             budget_cut max_to_add (a_step st) rollout (len dones)
             = Ok (rollout1, done_adding, r_len1) -> rollout_len rollout1 = r_len1).
  { intros rollout1 done_adding r_len1. unfold budget_cut, rollout_len.
    destruct max_to_add as [m|].
    - destruct (m <=? a_step st + len dones).
      + destruct (trim_rollout _ _ _) as [r1|]; [| done].
        destruct (r1 !! "dones"%string) as [dones1|] eqn:E1; [| done].
        intros [= <- _ <-]. by rewrite E1.
      + intros [= <- _ <-]. by rewrite Hdones.
    - intros [= <- _ <-]. by rewrite Hdones. }
  destruct (budget_cut max_to_add (a_step st) rollout (len dones))
    as [[[rollout1 done_adding] r_len1]|e]; [| done].
  specialize (Hcut _ _ _ eq_refl).
  destruct Hst as (Hlen & Hnext & Hstep & Hchain).
  match goal with |- context [if done_adding then (None, ?s1) else _] => set (st1 := s1) end.
  assert (Hst1 : consistent s0 k st1).
  { subst st1. unfold consistent; simpl.
    rewrite store_calls_app, length_app, stored_steps_app, length_alter. simpl.
    unfold stored_steps at 2; simpl. rewrite Hcut.
    split; [done |]. split; [lia |]. split; [lia |].
    rewrite Hnext, Hstep, Hlen. by apply chained_snoc. }
  destruct done_adding; [exact Hst1 | by apply IH].
Qed.

Lemma add_files_consistent (s0 : Z) (k : nat) (max_to_add : option Z) (fnames : list Fname) :
  forall st, consistent s0 k st -> consistent s0 k (add_files max_to_add fnames st).2.
Proof.
  induction fnames as [|fname fnames IH]; intros st Hst; simpl; [done |].
  match goal with |- context [add_file max_to_add _ ?s0'] => set (st0 := s0') end.
  assert (Hst0 : consistent s0 k st0).
  { destruct Hst as (Hlen & Hnext & Hstep & Hchain). subst st0. unfold consistent; simpl.
    rewrite store_calls_app; simpl. rewrite app_nil_r. done. }
  destruct (mypickle_load_rollouts fname) as [rollouts|]; [| exact Hst0].
  pose proof (add_file_consistent s0 k max_to_add rollouts st0 Hst0) as Hst1.
  destruct (add_file max_to_add rollouts st0) as [[e|] st1]; simpl in *; [done |].
  destruct (a_done_adding st1); [done | by apply IH].
Qed.

Lemma add_rollouts_unfold (fnames : list Fname) (max_to_add : option Z) (w : World) :
  let r := add_files max_to_add fnames (add_rollouts_from (self w)) in
  new_calls w (world_of (add_rollouts fnames max_to_add w)) = a_calls r.2
  /\ raised (add_rollouts fnames max_to_add w) = r.1
  /\ _replay_pools (self (world_of (add_rollouts fnames max_to_add w))) = a_pools r.2.
Proof.
  cbv zeta. unfold add_rollouts.
  destruct (add_files max_to_add fnames (add_rollouts_from (self w))) as [[e|] st]; simpl;
    (split; [by apply new_calls_app | done]).
Qed.

Lemma add_rollouts_from_consistent (s : t) :
  consistent (__len__ s) (length (_replay_pools s)) (add_rollouts_from s).
Proof.
  unfold consistent, add_rollouts_from, __len__; simpl. unfold stored_steps; simpl.
  split; [done |]. split; [done |]. split; [lia |]. intros j i start rollout Hj. done.
Qed.

(** The budget check either passes the rollout on whole, below the budget,
    or cuts it so that the step counter lands on the budget. *)
Lemma budget_cut_spec (m step : Z) (rollout : Rollout) (dones : list RVal)
    rollout1 done_adding r_len1 :
  rollout !! "dones"%string = Some dones ->
  step <= m ->
  budget_cut (Some m) step rollout (len dones) = Ok (rollout1, done_adding, r_len1) ->
  (done_adding = false /\ rollout1 = rollout /\ r_len1 = len dones /\ step + len dones < m)
  \/ (done_adding = true /\ m <= step + len dones /\ is_cut (m - step) rollout rollout1
      /\ step + r_len1 = m).
Proof.
  intros Hdones Hstep. unfold budget_cut.
  destruct (m <=? step + len dones) eqn:E.
  - apply Z.leb_le in E.
    destruct (trim_rollout (m - step) trimmed_keys rollout) as [r1|] eqn:Htrim; [| done].
    destruct (trim_rollout_is_cut _ _ NoDup_trimmed_keys _ _ Htrim) as [Hin Hout].
    assert (Hd : r1 !! "dones"%string = Some (slice_to (m - step) dones)).
    { rewrite Hin, Hdones; [done |]. unfold trimmed_keys. rewrite !elem_of_cons. auto. }
    rewrite Hd. intros [= <- <- <-]. right.
    split; [done |]. split; [done |]. split; [by split |].
    rewrite length_slice_to by lia. lia.
  - apply Z.leb_gt in E. intros [= <- <- <-]. left. done.
Qed.

Lemma add_file_budget (m : Z) (src : Rollout -> Prop) (rollouts : list Rollout) :
  (forall r, r ∈ rollouts -> src r) ->
  forall st,
    a_done_adding st = false -> a_step st <= m -> Forall (whole_store m src) (a_calls st) ->
    let out := add_file (Some m) rollouts st in
    a_step out.2 <= m
    /\ budget_log m src (a_calls out.2) (a_done_adding out.2)
    /\ (a_done_adding out.2 = true -> out.1 = None).
Proof.
  induction rollouts as [|rollout rollouts IH]; intros Hsrc st Hdone Hstep Hlog; cbv zeta;
    cbn [add_file fst snd].
  { rewrite Hdone. done. }
  destruct (a_pools st) as [|p ps] eqn:Hpools; [cbn [fst snd]; rewrite Hdone; done |].
  rewrite <- Hpools.
  destruct (rollout !! "dones"%string) as [dones|] eqn:Hdones.
  2:{ cbn [fst snd]. rewrite Hdone. split; [done | split; [exact Hlog | done]]. }
  destruct (budget_cut (Some m) (a_step st) rollout (len dones))
    as [[[rollout1 done_adding] r_len1]|e] eqn:Hcut.
  2:{ cbn [fst snd]. rewrite Hdone. split; [done | split; [exact Hlog | done]]. }
  assert (Hr : src rollout) by (apply Hsrc; apply list_elem_of_here).
  destruct (budget_cut_spec _ _ _ _ _ _ _ Hdones Hstep Hcut)
    as [(-> & -> & -> & Hlt) | (-> & Hge & Hcutr & Hm)].
  - apply IH; simpl.
    + intros r Hin. apply Hsrc. by apply list_elem_of_further.
    + done.
    + lia.
    + apply Forall_app. split; [done |]. apply Forall_singleton. simpl.
      unfold rollout_len. rewrite Hdones. done.
  - simpl. split; [lia |]. split; [| done].
    eexists _, _. split; [reflexivity |]. split; [done |]. simpl.
    exists rollout. unfold rollout_len. rewrite Hdones. simpl. repeat split; [done | lia | lia | |];
      apply Hcutr.
Qed.

Lemma add_files_budget (m : Z) (src : Rollout -> Prop) (fnames : list Fname) :
  (forall fname rollouts r,
      fname ∈ fnames -> mypickle_load_rollouts fname = Some rollouts -> r ∈ rollouts ->
      src r) ->
  forall st,
    a_done_adding st = false -> a_step st <= m -> Forall (whole_store m src) (a_calls st) ->
    let out := add_files (Some m) fnames st in
    a_step out.2 <= m
    /\ budget_log m src (a_calls out.2) (a_done_adding out.2)
    /\ (a_done_adding out.2 = true -> out.1 = None).
Proof.
  induction fnames as [|fname fnames IH]; intros Hsrc st Hdone Hstep Hlog; cbv zeta; simpl.
  { rewrite Hdone. done. }
  match goal with |- context [add_file (Some m) _ ?s0'] => set (st0 := s0') end.
  assert (Hlog0 : Forall (whole_store m src) (a_calls st0)).
  { subst st0; simpl. apply Forall_app. split; [done |]. by apply Forall_singleton. }
  destruct (mypickle_load_rollouts fname) as [rollouts|] eqn:Hload.
  2:{ simpl. rewrite Hdone. done. }
  assert (Hrs : forall r, r ∈ rollouts -> src r).
  { intros r Hin. eapply Hsrc; [| exact Hload | exact Hin]. apply list_elem_of_here. }
  pose proof (add_file_budget m src rollouts Hrs st0 Hdone Hstep Hlog0) as Hfile.
  cbv zeta in Hfile.
  destruct (add_file (Some m) rollouts st0) as [[e|] st1]; simpl in *; [exact Hfile |].
  destruct (a_done_adding st1) eqn:Hdone1; [simpl; by rewrite Hdone1 |].
  destruct Hfile as (Hstep1 & Hlog1 & _).
  apply IH; try done. intros f rs r Hf. apply Hsrc. by apply list_elem_of_further.
Qed.

Lemma load_calls_app (cs1 cs2 : list Call) :
  load_calls (cs1 ++ cs2) = load_calls cs1 ++ load_calls cs2.
Proof. apply omap_app. Qed.

Lemma stored_in_app (pools : list ReplayPool) (sc1 sc2 : list (nat * Z * Rollout)) :
  stored_in pools (sc1 ++ sc2) = stored_in (stored_in pools sc1) sc2.
Proof. apply foldl_app. Qed.

(** The pools of [add_rollouts] are the pools it started from with the
    logged [store_rollout] calls made on them. *)
Lemma add_file_pools (pools0 : list ReplayPool) (max_to_add : option Z)
    (rollouts : list Rollout) :
  forall st,
    a_pools st = stored_in pools0 (store_calls (a_calls st)) ->
    a_pools (add_file max_to_add rollouts st).2
    = stored_in pools0 (store_calls (a_calls (add_file max_to_add rollouts st).2)).
Proof.
  induction rollouts as [|rollout rollouts IH]; intros st Hst; simpl; [done |].
  destruct (a_pools st) as [|p ps] eqn:Hpools; [simpl; by rewrite Hpools |].
  rewrite <- Hpools. rewrite <- Hpools in Hst.
  destruct (rollout !! "dones"%string) as [dones|]; [| done].
  destruct (budget_cut max_to_add (a_step st) rollout (len dones))
    as [[[rollout1 done_adding] r_len1]|e]; [| done].
  match goal with |- context [if done_adding then (None, ?s1) else _] => set (st1 := s1) end.
  assert (Hst1 : a_pools st1 = stored_in pools0 (store_calls (a_calls st1))).
  { subst st1. cbn [a_pools a_calls]. rewrite store_calls_app, stored_in_app, <- Hst. done. }
  destruct done_adding; [exact Hst1 | by apply IH].
Qed.

Lemma add_files_pools (pools0 : list ReplayPool) (max_to_add : option Z)
    (fnames : list Fname) :
  forall st,
    a_pools st = stored_in pools0 (store_calls (a_calls st)) ->
    a_pools (add_files max_to_add fnames st).2
    = stored_in pools0 (store_calls (a_calls (add_files max_to_add fnames st).2)).
Proof.
  induction fnames as [|fname fnames IH]; intros st Hst; simpl; [done |].
  match goal with |- context [add_file max_to_add _ ?s0'] => set (st0 := s0') end.
  assert (Hst0 : a_pools st0 = stored_in pools0 (store_calls (a_calls st0))).
  { subst st0. cbn [a_pools a_calls]. rewrite store_calls_app. simpl.
    by rewrite app_nil_r. }
  destruct (mypickle_load_rollouts fname) as [rollouts|]; [| exact Hst0].
  pose proof (add_file_pools pools0 max_to_add rollouts st0 Hst0) as Hst1.
  destruct (add_file max_to_add rollouts st0) as [[e|] st1]; simpl in *; [done |].
  destruct (a_done_adding st1); [done | by apply IH].
Qed.

Lemma add_rollouts_pools (fnames : list Fname) (max_to_add : option Z) (w : World) :
  _replay_pools (self (world_of (add_rollouts fnames max_to_add w)))
  = stored_in (_replay_pools (self w))
      (store_calls (new_calls w (world_of (add_rollouts fnames max_to_add w)))).
Proof.
  destruct (add_rollouts_unfold fnames max_to_add w) as (Hcs & _ & Hpools).
  rewrite Hcs, Hpools. by apply add_files_pools.
Qed.

Lemma below_budget_cons (m start : Z) (rollout : Rollout) (rollouts : list Rollout) :
  below_budget m start (rollout :: rollouts)
  <-> start + rollout_len rollout < m
      /\ below_budget m (start + rollout_len rollout) rollouts.
Proof.
  unfold below_budget. split.
  - intros Hall. split.
    + specialize (Hall 0%nat rollout eq_refl). simpl in Hall. lia.
    + intros j r Hj. specialize (Hall (S j) r Hj). simpl in Hall. lia.
  - intros [Hhead Htail] [|j] r Hj; simpl in *.
    + injection Hj as <-. lia.
    + specialize (Htail j r Hj). simpl in Htail. lia.
Qed.

Lemma below_budget_app (m start : Z) (rollouts1 rollouts2 : list Rollout) :
  below_budget m start (rollouts1 ++ rollouts2)
  <-> below_budget m start rollouts1
      /\ below_budget m (start + sumZ (map rollout_len rollouts1)) rollouts2.
Proof.
  revert start. induction rollouts1 as [|r rs IH]; intros start; simpl.
  - rewrite Z.add_0_r. split; [intros H; split; [by intros j x ? | done] | by intros [_ H]].
  - rewrite !below_budget_cons, IH.
    replace (start + (rollout_len r + sumZ (map rollout_len rs)))
      with (start + rollout_len r + sumZ (map rollout_len rs)) by lia.
    tauto.
Qed.

Lemma below_budget_sum (m : Z) (rollouts : list Rollout) :
  forall start, start <= m -> below_budget m start rollouts ->
                start + sumZ (map rollout_len rollouts) <= m.
Proof.
  induction rollouts as [|r rs IH]; intros start Hstart Hbelow; simpl; [lia |].
  apply below_budget_cons in Hbelow as [Hr Hrs].
  specialize (IH (start + rollout_len r) ltac:(lia) Hrs). lia.
Qed.

Lemma trim_rollout_total (diff : Z) (keys : list string) :
  forall rollout : Rollout,
    Forall (fun k => is_Some (rollout !! k)) keys ->
    exists cut, trim_rollout diff keys rollout = Ok cut.
Proof.
  induction keys as [|k keys IH]; intros rollout Hkeys; [by eexists |].
  apply Forall_cons in Hkeys as [[arr Hk] Hkeys]. cbn [trim_rollout]. rewrite Hk.
  apply IH. eapply Forall_impl; [exact Hkeys |].
  intros k' Hk'. apply lookup_insert_is_Some'. by right.
Qed.

Lemma dones_trimmed : ("dones"%string : string) ∈ trimmed_keys.
Proof. unfold trimmed_keys. rewrite !elem_of_cons. auto. Qed.

(** The run of the inner loop under a budget, over rollouts that carry the
    five trimmed fields: either every rollout ended below the budget and was
    stored as it is, or the first rollout to reach the budget was stored cut
    and nothing after it. *)
Lemma add_file_budget_run (m : Z) (rollouts : list Rollout) :
  Forall (fun r : Rollout => Forall (fun k => is_Some (r !! k)) trimmed_keys) rollouts ->
  forall st,
    a_pools st <> [] -> a_done_adding st = false -> a_step st <= m ->
    let out := add_file (Some m) rollouts st in
    out.1 = None
    /\ a_pools out.2 <> []
    /\ load_calls (a_calls out.2) = load_calls (a_calls st)
    /\ ((a_done_adding out.2 = false
         /\ below_budget m (a_step st) rollouts
         /\ a_step out.2 = a_step st + sumZ (map rollout_len rollouts)
         /\ map snd (store_calls (a_calls out.2))
            = map snd (store_calls (a_calls st)) ++ rollouts)
        \/ (a_done_adding out.2 = true
            /\ exists pre r post cut,
                rollouts = pre ++ r :: post
                /\ below_budget m (a_step st) pre
                /\ m <= a_step st + sumZ (map rollout_len pre) + rollout_len r
                /\ is_cut (m - (a_step st + sumZ (map rollout_len pre))) r cut
                /\ a_step out.2 = m
                /\ map snd (store_calls (a_calls out.2))
                   = map snd (store_calls (a_calls st)) ++ pre ++ [cut])).
Proof.
  induction 1 as [|rollout rollouts Hkeys _ IH]; intros st Hpools Hdone Hstep; cbv zeta.
  { cbn [add_file fst snd]. split; [done |]. split; [done |]. split; [done |]. left.
    split; [done |]. split; [by intros j r ? |]. simpl. rewrite app_nil_r.
    split; [lia | done]. }
  cbn [add_file]. destruct (a_pools st) as [|p ps] eqn:Hps; [done |]. rewrite <- Hps.
  pose proof Hkeys as Hkeys'. rewrite Forall_forall in Hkeys'.
  destruct (Hkeys' _ dones_trimmed) as [dones Hdones]. rewrite Hdones.
  assert (Hlen : rollout_len rollout = len dones) by (unfold rollout_len; by rewrite Hdones).
  assert (Htotal : exists res, budget_cut (Some m) (a_step st) rollout (len dones) = Ok res).
  { unfold budget_cut. destruct (m <=? a_step st + len dones); [| by eexists].
    destruct (trim_rollout_total (m - a_step st) trimmed_keys rollout Hkeys) as [cut Htrim].
    destruct (trim_rollout_is_cut _ _ NoDup_trimmed_keys _ _ Htrim) as [Hin _].
    rewrite Htrim, (Hin _ dones_trimmed), Hdones. by eexists. }
  destruct Htotal as [[[rollout1 done_adding] r_len1] Hcut]. rewrite Hcut.
  match goal with |- context [if done_adding then (None, ?s1) else _] => set (st1 := s1) end.
  assert (Hpools1 : a_pools st1 <> []).
  { subst st1. cbn [a_pools]. intros Hnil. apply (f_equal length) in Hnil.
    rewrite length_alter, Hps in Hnil. done. }
  assert (Hcalls1 : map snd (store_calls (a_calls st1))
                    = map snd (store_calls (a_calls st)) ++ [rollout1]).
  { subst st1. cbn [a_calls]. by rewrite store_calls_app, map_app. }
  assert (Hloads1 : load_calls (a_calls st1) = load_calls (a_calls st)).
  { subst st1. cbn [a_calls]. rewrite load_calls_app. simpl. by rewrite app_nil_r. }
  destruct (budget_cut_spec _ _ _ _ _ _ _ Hdones Hstep Hcut)
    as [(-> & -> & -> & Hlt) | (-> & Hge & Hcutr & Hm)].
  - destruct (IH st1 Hpools1 eq_refl) as (Hnone & Hpools' & Hloads & Hcases).
    { subst st1. cbn [a_step]. lia. }
    split; [exact Hnone |]. split; [exact Hpools' |]. split; [by rewrite Hloads |].
    assert (Hstep1 : a_step st1 = a_step st + rollout_len rollout)
      by (subst st1; cbn [a_step]; lia).
    rewrite Hstep1 in Hcases.
    destruct Hcases as [(Hd & Hbelow & Hsteps & Hstores)
                       | (Hd & pre & r & post & cut & -> & Hbelow & Hreach & Hcutr & Hm
                          & Hstores)].
    + left. split; [done |]. split; [apply below_budget_cons; split; [lia | done] |].
      split; [simpl; lia |]. rewrite Hstores, Hcalls1, <- (assoc_L (++)). done.
    + right. split; [done |]. exists (rollout :: pre), r, post, cut.
      split; [done |]. split; [apply below_budget_cons; split; [lia | done] |].
      cbn [map sumZ foldr]. fold (sumZ (map rollout_len pre)).
      replace (a_step st + (rollout_len rollout + sumZ (map rollout_len pre)))
        with (a_step st + rollout_len rollout + sumZ (map rollout_len pre)) by lia.
      split; [done |]. split; [done |]. split; [done |].
      rewrite Hstores, Hcalls1, <- (assoc_L (++)). done.
  - cbn [fst snd]. split; [done |]. split; [done |]. split; [done |]. right.
    split; [done |]. exists [], rollout, rollouts, rollout1.
    split; [done |]. split; [by intros j r ? |]. simpl. rewrite Z.add_0_r.
    split; [lia |]. split; [done |]. split; [subst st1; cbn [a_step]; lia | done].
Qed.

(** The same for the outer loop, over files that can all be loaded. *)
Lemma add_files_budget_run (m : Z) (fnames : list Fname) :
  Forall (fun f => is_Some (mypickle_load_rollouts f)) fnames ->
  Forall (fun r : Rollout => Forall (fun k => is_Some (r !! k)) trimmed_keys)
    (concat (omap mypickle_load_rollouts fnames)) ->
  forall st,
    a_pools st <> [] -> a_done_adding st = false -> a_step st <= m ->
    let out := add_files (Some m) fnames st in
    let all := concat (omap mypickle_load_rollouts fnames) in
    out.1 = None
    /\ ((below_budget m (a_step st) all
         /\ map snd (store_calls (a_calls out.2)) = map snd (store_calls (a_calls st)) ++ all
         /\ load_calls (a_calls out.2) = load_calls (a_calls st) ++ fnames)
        \/ (exists pre r post cut k,
               all = pre ++ r :: post
               /\ below_budget m (a_step st) pre
               /\ m <= a_step st + sumZ (map rollout_len pre) + rollout_len r
               /\ is_cut (m - (a_step st + sumZ (map rollout_len pre))) r cut
               /\ a_step out.2 = m
               /\ map snd (store_calls (a_calls out.2))
                  = map snd (store_calls (a_calls st)) ++ pre ++ [cut]
               /\ load_calls (a_calls out.2) = load_calls (a_calls st) ++ take (S k) fnames
               /\ (length (concat (omap mypickle_load_rollouts (take k fnames)))
                   <= length pre
                   < length (concat (omap mypickle_load_rollouts (take (S k) fnames))))%nat)).
Proof.
  induction 1 as [|fname fnames [rollouts Hload] _ IH]; intros Hkeys st Hpools Hdone Hstep;
    cbv zeta.
  { cbn [add_files fst snd]. split; [done |]. left. simpl. rewrite !app_nil_r.
    split; [by intros j r ? | done]. }
  assert (Homap : omap mypickle_load_rollouts (fname :: fnames)
                  = rollouts :: omap mypickle_load_rollouts fnames).
  { cbn [omap list_omap]. by rewrite Hload. }
  rewrite Homap in Hkeys |- *. cbn [concat] in Hkeys |- *.
  apply Forall_app in Hkeys as [Hkeys1 Hkeys2].
  cbn [add_files]. rewrite Hload.
  match goal with |- context [add_file (Some m) rollouts ?s0] => set (st0 := s0) end.
  assert (Hloads0 : load_calls (a_calls st0) = load_calls (a_calls st) ++ [fname]).
  { subst st0. cbn [a_calls]. by rewrite load_calls_app. }
  assert (Hstores0 : store_calls (a_calls st0) = store_calls (a_calls st)).
  { subst st0. cbn [a_calls]. rewrite store_calls_app. simpl. by rewrite app_nil_r. }
  destruct (add_file_budget_run m rollouts Hkeys1 st0 Hpools Hdone Hstep)
    as (Hnone1 & Hpools1 & Hloads1 & Hcases1).
  change (a_step st0) with (a_step st) in Hcases1.
  rewrite Hstores0, Hloads0 in *.
  destruct (add_file (Some m) rollouts st0) as [e1 st1]. cbn [fst snd] in *. subst e1.
  destruct Hcases1 as [(Hd1 & Hbelow1 & Hsteps1 & Hstores1)
                      | (Hd1 & pre & r & post & cut & -> & Hbelow & Hreach & Hcutr & Hm
                         & Hstores1)].
  - rewrite Hd1.
    destruct (IH Hkeys2 st1 Hpools1 Hd1) as (Hnone & Hcases).
    { rewrite Hsteps1. by apply below_budget_sum. }
    split; [exact Hnone |]. rewrite Hsteps1, Hstores1, Hloads1 in Hcases.
    destruct Hcases as [(Hbelow & Hstores & Hloads)
                       | (pre & r & post & cut & k & Hall & Hbelow & Hreach & Hcutr & Hm
                          & Hstores & Hloads & Hk)].
    + left. split; [apply below_budget_app; by split |].
      split; [by rewrite Hstores, <- (assoc_L (++)) | by rewrite Hloads, <- (assoc_L (++))].
    + right. exists (rollouts ++ pre), r, post, cut, (S k).
      rewrite Hall. split; [by rewrite <- (assoc_L (++)) |].
      split; [apply below_budget_app; by split |].
      rewrite map_app, sumZ_app.
      replace (a_step st + (sumZ (map rollout_len rollouts) + sumZ (map rollout_len pre)))
        with (a_step st + sumZ (map rollout_len rollouts) + sumZ (map rollout_len pre))
        by lia.
      split; [done |]. split; [done |]. split; [done |].
      split; [by rewrite Hstores, <- !(assoc_L (++)) |].
      split; [by rewrite Hloads, <- !(assoc_L (++)) |].
      rewrite !firstn_cons. cbn [omap list_omap]. rewrite Hload. cbn [concat].
      change (list_omap Fname (list Rollout) mypickle_load_rollouts)
        with (omap (M := list) mypickle_load_rollouts).
      rewrite !length_app. lia.
  - rewrite Hd1. cbn [fst snd]. split; [done |]. right.
    exists pre, r, (post ++ concat (omap mypickle_load_rollouts fnames)), cut, 0%nat.
    split; [by rewrite <- (assoc_L (++)) |].
    split; [done |]. split; [done |]. split; [done |]. split; [done |].
    split; [done |]. split; [by rewrite Hloads1 |].
    cbn [take omap list_omap concat]. rewrite Hload. cbn [concat].
    rewrite app_nil_r, !length_app. simpl. lia.
Qed.

(** C2 (as amended): when [add_rollouts] is called with a budget of [m]
    steps on pools that hold at most [m] steps, the steps held after the
    call never exceed [m], the pools are the pools before with the logged
    [store_rollout] calls made on them, and every rollout it stores comes
    from one of the files and is either stored whole, ending below the
    budget, or is the rollout that reaches the budget: then its arrays
    [observations], [actions], [rewards], [dones] and [logprobs] are cut to
    [m] minus the steps already stored (every such array at least as long as
    [dones] comes out with exactly that length), its other fields are left
    as loaded, the stored steps land on [m], and this store is the last call
    made: no further rollout or file is read, and the call returns.  Over
    files that load, with rollouts that carry these five arrays and at least
    one pool, the call returns and does reach that rollout: either all the
    rollouts of all the files end below the budget and are stored as they
    are, or the rollouts before the first one to reach the budget are stored
    as they are, that one is stored cut, and the files after the one that
    holds it are not loaded. *)
Theorem add_rollouts_budget (fnames : list Fname) (m : Z) (w : World) :
  __len__ (self w) <= m ->
  let out := add_rollouts fnames (Some m) w in
  let cs := new_calls w (world_of out) in
  let held := __len__ (self w) in
  let all := concat (omap mypickle_load_rollouts fnames) in
  held + stored_steps (store_calls cs) <= m
  /\ _replay_pools (self (world_of out)) = stored_in (_replay_pools (self w)) (store_calls cs)
  /\ (forall j i start stored,
        cs !! j = Some (CallStoreRollout i start stored) ->
        exists rollout,
          loaded_from fnames rollout
          /\ ((stored = rollout /\ start + rollout_len rollout < m)
              \/ (m <= start + rollout_len rollout
                  /\ is_cut (m - start) rollout stored
                  /\ (forall k arr, k ∈ trimmed_keys -> rollout !! k = Some arr ->
                                    rollout_len rollout <= len arr ->
                                    exists arr', stored !! k = Some arr' /\ len arr' = m - start)
                  /\ start + rollout_len stored = m
                  /\ S j = length cs
                  /\ raised out = None)))
  /\ (_replay_pools (self w) <> [] ->
      Forall (fun f => is_Some (mypickle_load_rollouts f)) fnames ->
      Forall (fun r : Rollout => Forall (fun k => is_Some (r !! k)) trimmed_keys) all ->
      raised out = None
      /\ ((below_budget m held all
           /\ map snd (store_calls cs) = all
           /\ load_calls cs = fnames)
          \/ (exists pre r post cut k,
                 all = pre ++ r :: post
                 /\ below_budget m held pre
                 /\ m <= held + sumZ (map rollout_len pre) + rollout_len r
                 /\ is_cut (m - (held + sumZ (map rollout_len pre))) r cut
                 /\ map snd (store_calls cs) = pre ++ [cut]
                 /\ held + stored_steps (store_calls cs) = m
                 /\ load_calls cs = take (S k) fnames
                 /\ (length (concat (omap mypickle_load_rollouts (take k fnames)))
                     <= length pre
                     < length (concat (omap mypickle_load_rollouts (take (S k) fnames))))%nat))).
Proof.
  intros Hpre out cs held all.
  destruct (add_rollouts_unfold fnames (Some m) w) as (Hcs & Hraised & _).
  fold out in Hcs, Hraised. fold cs in Hcs.
  pose proof (add_rollouts_pools fnames (Some m) w) as Hpools. fold out cs in Hpools.
  pose proof (add_files_consistent _ _ (Some m) fnames _ (add_rollouts_from_consistent (self w)))
    as (_ & _ & Hstep & _).
  pose proof (add_files_budget m (loaded_from fnames) fnames) as Hbudget.
  specialize (Hbudget (fun f rs r Hf Hl Hr => ex_intro _ f (ex_intro _ rs (conj Hf (conj Hl Hr))))).
  specialize (Hbudget (add_rollouts_from (self w)) eq_refl Hpre (Forall_nil_2 _)).
  cbv zeta in Hbudget. destruct Hbudget as (Hle & Hlog & Hnone).
  pose proof (fun (Hne : _replay_pools (self w) <> []) Hfiles Hkeys =>
                add_files_budget_run m fnames Hfiles Hkeys (add_rollouts_from (self w)) Hne
                  eq_refl Hpre) as Hrun.
  cbv zeta in Hrun. fold all in Hrun.
  rewrite <- Hcs in Hstep, Hlog, Hrun. rewrite Hraised.
  change (a_step (add_rollouts_from (self w))) with held in Hrun.
  change (a_calls (add_rollouts_from (self w))) with (@nil Call) in Hrun.
  destruct (add_files (Some m) fnames (add_rollouts_from (self w))) as [e st]; simpl in *.
  split; [lia |]. split; [exact Hpools |]. split.
  2:{ intros Hne Hfiles Hkeys. destruct (Hrun Hne Hfiles Hkeys) as (He & Hcases).
      split; [exact He |].
      destruct Hcases as [(Hbelow & Hstores & Hloads)
                         | (pre & r & post & cut & k & Hall & Hbelow & Hreach & Hcutr & Hm
                            & Hstores & Hloads & Hk)].
      - left. done.
      - right. exists pre, r, post, cut, k.
        split; [done |]. split; [done |]. split; [done |]. split; [done |].
        split; [done |]. split; [unfold held; lia |]. done. }
  intros j i start stored Hj.
  assert (Hwhole : forall pre, Forall (whole_store m (loaded_from fnames)) pre ->
                               pre !! j = Some (CallStoreRollout i start stored) ->
                               loaded_from fnames stored /\ start + rollout_len stored < m).
  { intros pre Hall Hpre_j. rewrite Forall_lookup in Hall. exact (Hall _ _ Hpre_j). }
  destruct (a_done_adding st).
  - destruct Hlog as (pre & c & Hcs' & Hall & Hc). rewrite Hcs' in Hj.
    apply lookup_app_Some in Hj as [Hj | [Hge Hj]].
    { destruct (Hwhole pre Hall Hj) as [Hsrc Hlt]. exists stored. split; [done |]. by left. }
    apply list_lookup_singleton_Some in Hj as [Hj0 ->]. simpl in Hc.
    destruct Hc as (rollout & Hsrc & [Hlo Hhi] & Hcut).
    exists rollout. split; [done |]. right.
    assert (Hk : forall k arr, k ∈ trimmed_keys -> rollout !! k = Some arr ->
                               rollout_len rollout <= len arr ->
                               exists arr', stored !! k = Some arr' /\ len arr' = m - start).
    { intros k arr Hk Harr Hlen. exists (slice_to (m - start) arr).
      destruct Hcut as [Hin _]. rewrite (Hin _ Hk), Harr. split; [done |].
      rewrite length_slice_to by lia. lia. }
    split; [done |]. split; [done |]. split; [done |]. split; [| split; [| by apply Hnone]].
    + assert (Hd : ("dones"%string : string) ∈ trimmed_keys).
      { unfold trimmed_keys. rewrite !elem_of_cons. auto. }
      unfold rollout_len at 1. destruct Hcut as [Hin _]. rewrite (Hin _ Hd).
      unfold rollout_len in Hhi.
      destruct (rollout !! "dones"%string) as [dones|]; simpl in *.
      * rewrite length_slice_to by lia. lia.
      * unfold len in *. simpl in *. lia.
    + rewrite Hcs', length_app. simpl. lia.
  - destruct (Hwhole cs Hlog Hj) as [Hsrc Hlt]. exists stored. split; [done |]. by left.
Qed.

Lemma add_file_all (rollouts : list Rollout) :
  Forall (fun r : Rollout => is_Some (r !! "dones"%string)) rollouts ->
  forall st,
    a_pools st <> [] -> a_done_adding st = false ->
    exists st',
      add_file None rollouts st = (None, st')
      /\ a_pools st' <> [] /\ a_done_adding st' = false
      /\ map snd (store_calls (a_calls st')) = map snd (store_calls (a_calls st)) ++ rollouts
      /\ load_calls (a_calls st') = load_calls (a_calls st).
Proof.
  induction 1 as [|rollout rollouts [dones Hdones] _ IH]; intros st Hpools Hdone.
  { exists st. by rewrite app_nil_r. }
  cbn [add_file]. destruct (a_pools st) as [|p ps] eqn:E; [done |]. rewrite <- E.
  rewrite Hdones. cbn [budget_cut].
  match goal with |- context [add_file None rollouts ?s1] => set (st1 := s1) end.
  destruct (IH st1) as (st' & Hrun & Hpools' & Hdone' & Hstores & Hloads).
  { subst st1. cbn [a_pools]. intros Hnil. apply (f_equal length) in Hnil.
    rewrite length_alter, E in Hnil. done. }
  { done. }
  exists st'. split; [exact Hrun |]. split; [done |]. split; [done |].
  rewrite Hstores, Hloads. subst st1. cbn [a_calls].
  rewrite store_calls_app, load_calls_app, map_app. simpl.
  by rewrite <- (assoc_L (++)), app_nil_r.
Qed.

Lemma add_files_all (fnames : list Fname) :
  Forall (fun f => is_Some (mypickle_load_rollouts f)) fnames ->
  Forall (fun r : Rollout => is_Some (r !! "dones"%string))
    (concat (omap mypickle_load_rollouts fnames)) ->
  forall st,
    a_pools st <> [] -> a_done_adding st = false ->
    exists st',
      add_files None fnames st = (None, st')
      /\ a_pools st' <> [] /\ a_done_adding st' = false
      /\ map snd (store_calls (a_calls st'))
         = map snd (store_calls (a_calls st)) ++ concat (omap mypickle_load_rollouts fnames)
      /\ load_calls (a_calls st') = load_calls (a_calls st) ++ fnames.
Proof.
  induction 1 as [|fname fnames [rollouts Hload] _ IH]; intros Hdones st Hpools Hdone.
  { exists st. by rewrite !app_nil_r. }
  cbn [add_files]. rewrite Hload.
  cbn [omap list_omap] in Hdones.
  change (list_omap Fname (list Rollout) mypickle_load_rollouts fnames)
    with (omap mypickle_load_rollouts fnames) in Hdones.
  rewrite Hload in Hdones. cbn [concat] in Hdones.
  apply Forall_app in Hdones as [Hdones1 Hdones2].
  match goal with |- context [add_file None rollouts ?s0] => set (st0 := s0) end.
  destruct (add_file_all rollouts Hdones1 st0 Hpools Hdone)
    as (st1 & Hrun1 & Hpools1 & Hdone1 & Hstores1 & Hloads1).
  rewrite Hrun1, Hdone1.
  destruct (IH Hdones2 st1 Hpools1 Hdone1) as (st' & Hrun & Hpools' & Hdone' & Hstores & Hloads).
  exists st'. split; [exact Hrun |]. split; [done |]. split; [done |].
  rewrite Hstores, Hloads, Hstores1, Hloads1. subst st0. cbn [a_calls].
  rewrite store_calls_app, load_calls_app. cbn [omap list_omap].
  change (list_omap Fname (list Rollout) mypickle_load_rollouts fnames)
    with (omap mypickle_load_rollouts fnames).
  rewrite Hload. simpl. by rewrite !app_nil_r, <- !(assoc_L (++)).
Qed.

(** Without a budget and over files that load, [add_rollouts] comes back
    having loaded every file once, in order, and stored every rollout of
    every file, unchanged and in order. *)
Lemma add_rollouts_all (fnames : list Fname) (w : World) :
  _replay_pools (self w) <> [] ->
  Forall (fun f => is_Some (mypickle_load_rollouts f)) fnames ->
  Forall (fun r : Rollout => is_Some (r !! "dones"%string))
    (concat (omap mypickle_load_rollouts fnames)) ->
  raised (add_rollouts fnames None w) = None
  /\ load_calls (new_calls w (world_of (add_rollouts fnames None w))) = fnames
  /\ map snd (store_calls (new_calls w (world_of (add_rollouts fnames None w))))
     = concat (omap mypickle_load_rollouts fnames).
Proof.
  intros Hpools Hfiles Hdones.
  destruct (add_rollouts_unfold fnames None w) as (Hcs & Hraised & _).
  rewrite Hcs, Hraised.
  destruct (add_files_all fnames Hfiles Hdones (add_rollouts_from (self w)) Hpools eq_refl)
    as (st' & -> & _ & _ & Hstores & Hloads).
  done.
Qed.

(** On [add_rollouts]: the start index of every
    [store_rollout] call is the number of steps the pools held when the call
    began plus the steps of the rollouts stored before it, and the calls go
    to the pools in turn. *)
Lemma add_rollouts_chained (fnames : list Fname) (max_to_add : option Z) (w : World) :
  chained (__len__ (self w)) (length (_replay_pools (self w)))
    (store_calls (new_calls w (world_of (add_rollouts fnames max_to_add w)))).
Proof.
  destruct (add_rollouts_unfold fnames max_to_add w) as (Hcs & _). rewrite Hcs.
  by pose proof (add_files_consistent _ _ max_to_add fnames _
                   (add_rollouts_from_consistent (self w))) as (_ & _ & _ & Hchain).
Qed.

(** In a chain, each call starts where the one before it ends. *)
Lemma chained_contiguous (s0 : Z) (k : nat) (sc : list (nat * Z * Rollout))
    (j i i' : nat) (start start' : Z) (rollout rollout' : Rollout) :
  chained s0 k sc ->
  sc !! j = Some (i, start, rollout) -> sc !! S j = Some (i', start', rollout') ->
  start' = start + rollout_len rollout.
Proof.
  intros Hsc Hj Hj'.
  destruct (Hsc _ _ _ _ Hj) as [-> _]. destruct (Hsc _ _ _ _ Hj') as [-> _].
  rewrite (take_S_r _ _ _ Hj), stored_steps_app.
  assert (E : forall x : nat * Z * Rollout, stored_steps [x] = rollout_len x.2)
    by (intros x; unfold stored_steps; simpl; lia).
  rewrite E. simpl. lia.
Qed.

End Facts.
End AddRolloutsFacts.

(** ** EvalOffline._load_data *)

Module EvalOfflineFacts.
Section Facts.
Context {np : NumPy} {C : Collaborators}.
Import Sampler EvalOffline.

Lemma load_files_spec (fnames : list Fname) :
  forall (rollouts : list Rollout) (num_load_success num_load_fail : Z),
    load_files fnames rollouts num_load_success num_load_fail
    = (rollouts ++ concat (omap mypickle_load_rollouts fnames),
       num_load_success + len (omap mypickle_load_rollouts fnames),
       num_load_fail + (len fnames - len (omap mypickle_load_rollouts fnames))).
Proof.
  unfold len. induction fnames as [|fname fnames IH]; intros rollouts s f; simpl.
  - rewrite app_nil_r.
    apply pair_equal_spec; split; [apply pair_equal_spec; split |]; try done; lia.
  - destruct (mypickle_load_rollouts fname) as [loaded|]; rewrite IH; simpl;
      change (list_omap Fname (list Rollout) mypickle_load_rollouts fnames)
        with (omap mypickle_load_rollouts fnames).
    + rewrite <- (assoc_L (++)).
      apply pair_equal_spec; split; [apply pair_equal_spec; split |]; try done; lia.
    + apply pair_equal_spec; split; [apply pair_equal_spec; split |]; try done; lia.
Qed.

Lemma total_steps_spec (rollouts : list Rollout) :
  Forall (fun r => is_Some (r !! "dones"%string)) rollouts ->
  total_steps rollouts = Ok (sumZ (map rollout_len rollouts)).
Proof.
  induction 1 as [|r rollouts [dones Hr] _ IH]; simpl; [done |].
  rewrite Hr, IH. unfold sumZ, rollout_len. simpl. by rewrite ?Hr.
Qed.

Lemma total_steps_inv (rollouts : list Rollout) (n : Z) :
  total_steps rollouts = Ok n ->
  Forall (fun r => is_Some (r !! "dones"%string)) rollouts
  /\ n = sumZ (map rollout_len rollouts).
Proof.
  revert n. induction rollouts as [|r rollouts IH]; intros n; cbn [total_steps].
  - intros [= <-]. done.
  - destruct (r !! "dones"%string) as [dones|] eqn:Hr; [| done].
    destruct (total_steps rollouts) as [n'|]; [| done].
    intros [= <-]. destruct (IH n' eq_refl) as [Hall ->].
    split; [constructor; [by eexists | done] |].
    cbn [map]. unfold sumZ. cbn [foldr]. unfold rollout_len. by rewrite Hr.
Qed.

Lemma store_rollouts_total (rollouts : list Rollout) :
  Forall (fun r => is_Some (r !! "dones"%string)) rollouts ->
  forall curr_len p, exists p' cs, store_rollouts curr_len rollouts p = Ok (p', cs).
Proof.
  induction 1 as [|r rollouts [dones Hr] _ IH]; intros curr_len p; simpl; [by eexists _, _ |].
  rewrite Hr. destruct (IH (curr_len + len dones) (store_rollout curr_len r p)) as (p' & cs & ->).
  by eexists _, _.
Qed.

Lemma store_rollouts_spec (rollouts : list Rollout) :
  forall curr_len p p' cs,
    store_rollouts curr_len rollouts p = Ok (p', cs) ->
    map snd cs = rollouts
    /\ (forall j start r, cs !! j = Some (start, r) ->
                          start = curr_len + stored_steps (take j cs))
    /\ p' = foldl (fun q c => store_rollout c.1 c.2 q) p cs.
Proof.
  induction rollouts as [|r rollouts IH]; intros curr_len p p' cs; simpl.
  - intros [= <- <-]. split; [done |]. split; [| done]. intros j start r Hj. done.
  - destruct (r !! "dones"%string) as [dones|] eqn:Hr; [| done].
    destruct (store_rollouts (curr_len + len dones) rollouts (store_rollout curr_len r p))
      as [[q cs']|] eqn:Hrest; [| done].
    intros [= <- <-]. destruct (IH _ _ _ _ Hrest) as (Hmap & Hstart & Hfold).
    split; [simpl; by rewrite Hmap |]. split; [| done].
    intros [|j] start r' Hj; simpl in Hj.
    + injection Hj as <- <-. unfold stored_steps. simpl. lia.
    + rewrite (Hstart _ _ _ Hj). simpl. unfold stored_steps. simpl.
      unfold rollout_len at 2. rewrite Hr. simpl. lia.
Qed.

(** C3: [_load_data] goes through all the files; a file that fails to load
    is counted as a failure and skipped, and the rollouts of every file that
    loads are all passed to [store_rollout] on the new pool, in order.  With
    at least one file, and every loaded rollout carrying its [dones] array,
    it returns, and the ratio it logs is
    [100 * successes / (successes + failures)].  On three files of which the
    second cannot be read the logged ratio is 200/3, that is 66.7 to one
    decimal place, and the ring store of the spec then holds every
    transition of the two readable files. *)
Theorem load_data_skips_unreadable (self : EvalOffline.t) (fnames : list Fname) :
  let read := omap mypickle_load_rollouts fnames in
  let successes := len read in
  let failures := len fnames - successes in
  (fnames <> [] ->
   Forall (fun r => is_Some (r !! "dones"%string)) (concat read) ->
   exists ld,
     _load_data self true fnames = Ok ld
     /\ (logged_ratio ld == 100 * inject_Z successes / inject_Z (successes + failures))%Q
     /\ map snd (stored ld) = concat read
     /\ replay_pool ld
        = foldl (fun p c => store_rollout c.1 c.2 p)
            (ReplayPool_new (env_spec (_env self)) (env_horizon (_env self))
               (policy_N (_model self)) (policy_gamma (_model self))
               (11 * stored_steps (stored ld) / 10) (policy_obs_history_len (_model self))
               "uniform" false false false empty_params)
            (stored ld))
  /\ (let ld := ok (_load_data (C := Double.collaborators Examples.two_readable)
                      (Examples.eval_offline Examples.two_readable) true
                      Examples.three_files) in
      logged_ratio <$> ld = Some (200 # 3)%Q
      /\ (6665 # 100 <= 200 # 3 < 6675 # 100)%Q
      /\ (fun l : EvalOffline.loaded (C := Double.collaborators Examples.two_readable) =>
            RingStore.current_size (replay_pool l)) <$> ld = Some 5
      /\ (fun l : EvalOffline.loaded (C := Double.collaborators Examples.two_readable) =>
            (fun j => RingStore.ring (replay_pool l) !! j) <$> seqZ 0 5) <$> ld
         = Some (Some <$> ((RingStore.rollout_entry 0 (Examples.rollout_of 3) <$> seq 0 3)
                           ++ (RingStore.rollout_entry 3 (Examples.rollout_of 2) <$> seq 0 2)))).
Proof.
  intros read successes failures. split.
  - intros Hfiles Hdones. unfold _load_data. simpl.
    rewrite load_files_spec. fold read successes failures. simpl.
    unfold success_ratio.
    assert (Hsum : 0 + successes + (0 + failures) = len fnames)
      by (unfold failures; lia).
    destruct (0 + successes + (0 + failures) =? 0) eqn:E.
    { apply Z.eqb_eq in E. rewrite Hsum in E. unfold len in E.
      destruct fnames; [done | simpl in E; lia]. }
    rewrite (total_steps_spec _ Hdones).
    match goal with |- context [store_rollouts 0 _ ?p0] => set (pool0 := p0) end.
    destruct (store_rollouts_total _ Hdones 0 pool0) as (p' & cs & Hstore).
    rewrite Hstore.
    destruct (store_rollouts_spec _ _ _ _ _ Hstore) as (Hmap & _ & Hfold).
    eexists. split; [reflexivity |]. simpl.
    split; [by rewrite !Z.add_0_l |]. split; [done |].
    rewrite Hfold. subst pool0. do 3 f_equal.
    unfold stored_steps. rewrite <- Hmap, map_map. done.
  - cbv zeta. split; [by vm_compute |]. split; [split; by vm_compute |].
    split; by vm_compute.
Qed.

End Facts.
End EvalOfflineFacts.

(** ** Start indices of bulk ingest *)

Module BulkFacts.
Section Facts.
Context {np : NumPy} {C : Collaborators}.
Import Sampler SamplerState EvalOffline AddRolloutsFacts EvalOfflineFacts.

(** C5: in [add_rollouts] every [store_rollout] call gets as start index
    the steps the pools held when the call began plus the steps of the
    rollouts stored before it in the same call, the calls go to the pools in
    turn, each call starts where the one before it ends, and the pools
    afterwards are the pools before with exactly these calls made on them,
    each on the pool of its turn; without a budget, over files that load,
    every rollout of every file is stored so, in order.  In [_load_data] the
    start indices count up from 0 in the same way, the rollouts stored are
    those of the files that load, in order, and the pool returned is the new
    pool with exactly these calls made on it. *)
Theorem bulk_start_indices :
  (forall (fnames : list Fname) (max_to_add : option Z) (w : World),
      let sc := store_calls (new_calls w (world_of (add_rollouts fnames max_to_add w))) in
      (forall j i start rollout,
          sc !! j = Some (i, start, rollout) ->
          start = __len__ (self w) + stored_steps (take j sc)
          /\ i = (j mod length (_replay_pools (self w)))%nat)
      /\ (forall j i i' start start' rollout rollout',
             sc !! j = Some (i, start, rollout) -> sc !! S j = Some (i', start', rollout') ->
             start' = start + rollout_len rollout)
      /\ _replay_pools (self (world_of (add_rollouts fnames max_to_add w)))
         = stored_in (_replay_pools (self w)) sc
      /\ (max_to_add = None ->
          _replay_pools (self w) <> [] ->
          Forall (fun f => is_Some (mypickle_load_rollouts f)) fnames ->
          Forall (fun r : Rollout => is_Some (r !! "dones"%string))
            (concat (omap mypickle_load_rollouts fnames)) ->
          raised (add_rollouts fnames max_to_add w) = None
          /\ map snd sc = concat (omap mypickle_load_rollouts fnames)))
  /\ (forall (self : EvalOffline.t) (folder_exists : bool) (fnames : list Fname) ld,
         _load_data self folder_exists fnames = Ok ld ->
         (forall j start rollout,
             stored ld !! j = Some (start, rollout) ->
             start = stored_steps (take j (stored ld)))
         /\ (forall j start start' rollout rollout',
                stored ld !! j = Some (start, rollout) ->
                stored ld !! S j = Some (start', rollout') ->
                start' = start + rollout_len rollout)
         /\ map snd (stored ld) = concat (omap mypickle_load_rollouts fnames)
         /\ replay_pool ld
            = foldl (fun p c => store_rollout c.1 c.2 p)
                (ReplayPool_new (env_spec (_env self)) (env_horizon (_env self))
                   (policy_N (_model self)) (policy_gamma (_model self))
                   (11 * stored_steps (stored ld) / 10) (policy_obs_history_len (_model self))
                   "uniform" false false false empty_params)
                (stored ld)).
Proof.
  split.
  - intros fnames max_to_add w sc.
    pose proof (add_rollouts_chained fnames max_to_add w) as Hchain. fold sc in Hchain.
    split; [exact Hchain |]. split; [| split; [apply add_rollouts_pools |]].
    + intros j i i' start start' r r' Hj Hj'.
      exact (chained_contiguous _ _ _ _ _ _ _ _ _ _ Hchain Hj Hj').
    + intros -> Hne Hfiles Hdones.
      destruct (add_rollouts_all fnames w Hne Hfiles Hdones) as (Hraised & _ & Hstores).
      done.
  - intros self folder_exists fnames ld. unfold _load_data.
    destruct folder_exists; [| done]. simpl.
    pose proof (load_files_spec fnames [] 0 0) as Hload.
    destruct (load_files fnames [] 0 0) as [[rollouts s] f].
    injection Hload as Hrollouts _ _. simpl in Hrollouts.
    destruct (success_ratio s f); [| done].
    destruct (total_steps rollouts) as [total|] eqn:Htotal; [| done].
    match goal with |- context [store_rollouts 0 _ ?p0] => set (pool0 := p0) end.
    destruct (store_rollouts 0 rollouts pool0) as [[p cs]|] eqn:Hstore; [| done].
    intros [= <-]. simpl.
    destruct (store_rollouts_spec _ _ _ _ _ Hstore) as (Hmap & Hstart & Hfold).
    assert (Hstart' : forall j start rollout,
               cs !! j = Some (start, rollout) -> start = stored_steps (take j cs)).
    { intros j start r Hj. rewrite (Hstart _ _ _ Hj). lia. }
    split; [exact Hstart' |]. split; [| split; [by rewrite Hmap |]].
    + intros j start start' r r' Hj Hj'.
      rewrite (Hstart' _ _ _ Hj), (Hstart' _ _ _ Hj'), (take_S_r _ _ _ Hj), stored_steps_app.
      assert (E : forall x : Z * Rollout, stored_steps [x] = rollout_len x.2)
        by (intros x; unfold stored_steps; simpl; lia).
      rewrite E. simpl. lia.
    + rewrite Hfold. subst pool0. do 3 f_equal.
      destruct (total_steps_inv _ _ Htotal) as [_ ->].
      unfold stored_steps. rewrite <- Hmap, map_map. done.
Qed.

End Facts.
End BulkFacts.

(** * The statements at concrete inputs *)

Module Concrete.
Import Sampler.

(** C1, counterexample: on an environment that reports done at its first
    tick, [step] calls [reset_get_action] right after stepping the
    environment and stores the effect afterwards, so the notification does
    not come after the effects are stored. *)
Lemma step_notifies_before_storing :
  returned (step 0 false true Examples.one_tick_world) = Some tt
  /\ new_calls Examples.one_tick_world (world_of (step 0 false true Examples.one_tick_world))
     = [CallStoreObservation (C := Double.collaborators ∅) 0 0 (VInt 0);
        CallEncodeRecentObservation 0;
        CallGetActions [0] true;
        CallVecEnvStep (C := Double.collaborators ∅) [VInt 0];
        CallResetGetAction;
        CallStoreEffect (C := Double.collaborators ∅) 0 (VInt 0) (SInt 1) true ∅ (SInt 0)
          (SInt 0)]
  /\ ~ notified_after_effects
         (new_calls Examples.one_tick_world (world_of (step 0 false true Examples.one_tick_world))).
Proof.
  split; [reflexivity |].
  assert (E : new_calls Examples.one_tick_world
                (world_of (step 0 false true Examples.one_tick_world))
              = [CallStoreObservation (C := Double.collaborators ∅) 0 0 (VInt 0);
                 CallEncodeRecentObservation 0;
                 CallGetActions [0] true;
                 CallVecEnvStep (C := Double.collaborators ∅) [VInt 0];
                 CallResetGetAction;
                 CallStoreEffect (C := Double.collaborators ∅) 0 (VInt 0) (SInt 1) true ∅ (SInt 0)
          (SInt 0)])
    by reflexivity.
  split; [exact E |].
  rewrite E. intros Hafter.
  specialize (Hafter 4%nat 5%nat _ eq_refl eq_refl eq_refl). lia.
Qed.

(** C1, witness. *)
Lemma step_call_order_witness :
  step 0 false true Examples.one_tick_world
  = Return tt (world_of (step 0 false true Examples.one_tick_world))
  /\ notified_before_effects
       (new_calls Examples.one_tick_world (world_of (step 0 false true Examples.one_tick_world))).
Proof.
  split; [reflexivity |].
  destruct (SamplerFacts.step_call_order 0 false true Examples.one_tick_world
              (world_of (step 0 false true Examples.one_tick_world)) eq_refl)
    as (? & ? & ? & ? & ? & ? & ? & ? & ? & ? & ? & _ & _ & _ & _ & Hbefore & _).
  exact Hbefore.
Defined.

(** C4, counterexample: the constructor refuses two environments. *)
Lemma init_two_environments_fails :
  __init__ (C := Double.collaborators ∅) Examples.policy0 (Examples.env_of (Discrete 4))
    2 100 1000 "uniform" false true false None tt
  = Err AssertionError
  /\ ~ exists s,
        __init__ (C := Double.collaborators ∅) Examples.policy0 (Examples.env_of (Discrete 4))
          2 100 1000 "uniform" false true false None tt
        = Ok s.
Proof. split; [reflexivity |]. intros [s Hs]. discriminate Hs. Qed.

(** C4, witness. *)
Lemma init_single_environment_witness :
  1 = 1
  /\ __init__ (C := Double.collaborators ∅) Examples.policy0 (Examples.env_of (Discrete 4))
       1 100 1000 "uniform" false true false None tt
     = Ok (Examples.sampler_over ∅ (Discrete 4) 100 1000).
Proof.
  split; [reflexivity |].
  exact (proj1 (proj2 (SamplerFacts.init_single_environment (C := Double.collaborators ∅)
                         Examples.policy0 (Examples.env_of (Discrete 4))
                         1 100 1000 "uniform" false true false None tt)) eq_refl).
Defined.

(** C2, counterexample: with a budget of 2 steps the first rollout (3 steps)
    is stored with [dones] cut to 2 entries and [env_infos] and
    [est_values] still 3 entries long, so not every per-field array is cut
    to the budget; and on pools that already hold 5 steps, a budget of 1
    makes [add_rollouts] store 6 more steps of a rollout of 10. *)
Lemma add_rollouts_budget_fails :
  (let sc := Examples.stored_by "a.pkl" (Some 2) Examples.empty_world in
   (fun c => len <$> c.2 !! "dones"%string) <$> sc = [Some 2]
   /\ (fun c => len <$> c.2 !! "env_infos"%string) <$> sc = [Some 3]
   /\ (fun c => len <$> c.2 !! "est_values"%string) <$> sc = [Some 3]
   /\ ~ (forall c k arr, c ∈ sc -> c.2 !! k = Some arr -> len arr = 2 - 0))
  /\ (let sc := Examples.stored_by "big.pkl" (Some 1) Examples.five_steps_world in
      __len__ (self Examples.five_steps_world) = 5
      /\ (fun c => (c.1.2, len <$> c.2 !! "dones"%string)) <$> sc = [(5, Some 6)]
      /\ stored_steps sc = 6
      /\ ~ stored_steps sc <= 1).
Proof.
  split; cbv zeta.
  - assert (E : (fun c : nat * Z * gmap string (list pyval) =>
                   len <$> c.2 !! "env_infos"%string)
                <$> Examples.stored_by "a.pkl" (Some 2) Examples.empty_world
                = [Some 3]) by (by vm_compute).
    split; [by vm_compute |]. split; [exact E |]. split; [by vm_compute |].
    intros Hall.
    destruct (Examples.stored_by "a.pkl" (Some 2) Examples.empty_world)
      as [|c [|c' sc]]; simpl in E; try discriminate E.
    injection E as E.
    apply fmap_Some in E as (arr & Harr & E).
    specialize (Hall c "env_infos"%string arr (list_elem_of_here _ _) Harr).
    discriminate (eq_trans E Hall).
  - split; [by vm_compute |]. split; [by vm_compute |].
    assert (E : stored_steps (Examples.stored_by "big.pkl" (Some 1) Examples.five_steps_world)
                = 6) by (by vm_compute).
    split; [exact E |]. rewrite E. lia.
Qed.

(** C2, witness: a budget of 2 steps on empty pools, over the file of a
    rollout of 3 steps and one of 2. *)
Lemma add_rollouts_budget_witness :
  __len__ (self Examples.empty_world) <= 2
  /\ __len__ (self Examples.empty_world)
     + stored_steps (Examples.stored_by "a.pkl" (Some 2) Examples.empty_world)
     <= 2
  /\ _replay_pools (self (world_of (add_rollouts (C := Double.collaborators Examples.two_files)
                                      ["a.pkl"%string] (Some 2) Examples.empty_world)))
     = SamplerState.stored_in (_replay_pools (self Examples.empty_world))
         (Examples.stored_by "a.pkl" (Some 2) Examples.empty_world)
  /\ raised (add_rollouts (C := Double.collaborators Examples.two_files)
               ["a.pkl"%string] (Some 2) Examples.empty_world)
     = None.
Proof.
  assert (Hpre : __len__ (self Examples.empty_world) <= 2) by (change (0 <= 2); lia).
  assert (Hne : _replay_pools (self Examples.empty_world) <> []) by discriminate.
  assert (Hfiles : Forall (fun f => is_Some (mypickle_load_rollouts
                                               (Collaborators := Double.collaborators
                                                                   Examples.two_files) f))
                     ["a.pkl"%string]).
  { apply Forall_cons; split; [by eexists | apply Forall_nil_2]. }
  assert (Hkeys : Forall (fun r : gmap string (list pyval) =>
                            Forall (fun k => is_Some (r !! k)) trimmed_keys)
                    (concat (omap (mypickle_load_rollouts
                                     (Collaborators := Double.collaborators Examples.two_files))
                               ["a.pkl"%string]))).
  { change (Forall (fun r : gmap string (list pyval) =>
                      Forall (fun k => is_Some (r !! k)) trimmed_keys)
              [Examples.rollout_of 3; Examples.rollout_of 2]).
    repeat (apply Forall_cons; split;
            [repeat (apply Forall_cons; split; [by eexists |]); apply Forall_nil_2 |]).
    apply Forall_nil_2. }
  pose proof (AddRolloutsFacts.add_rollouts_budget
                (C := Double.collaborators Examples.two_files)
                ["a.pkl"%string] 2 Examples.empty_world Hpre) as (Hle & Hpools & _ & Hrun).
  split; [exact Hpre |]. split; [exact Hle |]. split; [exact Hpools |].
  exact (proj1 (Hrun Hne Hfiles Hkeys)).
Defined.

(** C5, witness. *)
Lemma bulk_start_indices_witness :
  let sc := Examples.stored_by "a.pkl" None Examples.empty_world in
  sc !! 1%nat = Some (0%nat, 3, Examples.rollout_of 2)
  /\ 3 = __len__ (self Examples.empty_world) + stored_steps (take 1 sc)
  /\ 0%nat = (1 mod length (_replay_pools (self Examples.empty_world)))%nat.
Proof.
  cbv zeta. split; [reflexivity |].
  exact (proj1 (proj1 (BulkFacts.bulk_start_indices
                         (C := Double.collaborators Examples.two_files))
                  ["a.pkl"%string] None Examples.empty_world)
           1%nat 0%nat 3 (Examples.rollout_of 2) eq_refl).
Defined.

(** C3, witness. *)
Lemma load_data_skips_unreadable_witness :
  Examples.three_files <> []
  /\ exists ld,
      EvalOffline._load_data (C := Double.collaborators Examples.two_readable)
        (Examples.eval_offline Examples.two_readable) true Examples.three_files
      = Ok ld
      /\ map snd (EvalOffline.stored ld) = [Examples.rollout_of 3; Examples.rollout_of 2].
Proof.
  assert (Hfiles : Examples.three_files <> []) by discriminate.
  split; [exact Hfiles |].
  assert (Hdones : Forall (fun r : gmap string (list pyval) => is_Some (r !! "dones"%string))
                     (concat (omap (mypickle_load_rollouts
                                      (Collaborators := Double.collaborators
                                                          Examples.two_readable))
                                Examples.three_files))).
  { change (Forall (fun r : gmap string (list pyval) => is_Some (r !! "dones"%string))
              [Examples.rollout_of 3; Examples.rollout_of 2]).
    repeat (apply Forall_cons; split; [by eexists |]). apply Forall_nil_2. }
  destruct (proj1 (EvalOfflineFacts.load_data_skips_unreadable
                     (Examples.eval_offline Examples.two_readable) Examples.three_files)
              Hfiles Hdones) as (ld & Hld & _ & Hstored & _).
  exists ld. split; [exact Hld | exact Hstored].
Defined.

(** C10, witness. *)
Lemma step_random_actions_witness :
  _curr_observations (self Examples.random_world) = Some [VInt 0]
  /\ exists w',
      step 0 true true Examples.random_world = Return tt w'
      /\ forall i a r d info v lp,
          CallStoreEffect i a r d info v lp ∈ new_calls Examples.random_world w' ->
          [VFloat (SInt 7)] !! i = Some a /\ v = SNan /\ lp = SNeg (SLog (SInt 4)).
Proof.
  split; [reflexivity |].
  destruct (proj1 (SamplerFacts.step_random_actions 0 true Examples.random_world [VInt 0] eq_refl)
              4 eq_refl)
    as (w' & ? & ? & ? & ? & ? & Hstep & _ & _ & Hstored & _).
  exists w'. split; [exact Hstep | exact Hstored].
Defined.


(** After that reset and those two steps, the history view that the third
    step hands to the policy holds the three observations returned since the
    reset behind one zero, and none of the twelve stored before. *)
Example history_view_after_reset :
  let w2 := Examples.steps ∅ 2 12 (world_of (reset Examples.held_world)) in
  _curr_observations (self w2) = Some [VInt 2]
  /\ map fst (SamplerState.encodings (C := Double.collaborators ∅) 14
                (_replay_pools (self w2)) [VInt 2])
     = [[None; Some (VInt 0); Some (VInt 1); Some (VInt 2)]].
Proof. split; reflexivity. Qed.

(** The step indices have to go up by one: when the reset sampler takes a
    step numbered 10 and the next is numbered 12, the ring slot of step 11
    is not written again, and the history view of the ring store of the spec
    reads the observation 111 stored there before the reset. *)
Example history_view_over_a_gap :
  let w1 := Examples.steps ∅ 1 10 (world_of (reset Examples.held_world)) in
  _curr_observations (self w1) = Some [VInt 1]
  /\ map fst (SamplerState.encodings (C := Double.collaborators ∅) 12
                (_replay_pools (self w1)) [VInt 1])
     = [[None; None; Some (VInt 111); Some (VInt 1)]].
Proof. split; reflexivity. Qed.

(** A random step over a [Box] with bounds [-1, 1] and [0, 2]: one sample,
    one environment step, and an effect stored with a NaN value estimate and
    the log-probability [-sum [log (1 - -1); log (2 - 0)]]. *)
Example step_random_over_box :
  new_calls Examples.box_world (world_of (step 0 true true Examples.box_world))
  = [CallStoreObservation (C := Double.collaborators ∅) 0 0 (VInt 0);
     CallEncodeRecentObservation 0;
     CallActionSpaceSample;
     CallVecEnvStep (C := Double.collaborators ∅) [VFloat (SInt 7)];
     CallStoreEffect (C := Double.collaborators ∅) 0 (VFloat (SInt 7)) (SInt 1) false ∅ SNan
       (SNeg (SSum [SLog (SSub (SInt 1) (SInt (-1))); SLog (SSub (SInt 2) (SInt 0))]))].
Proof. reflexivity. Qed.

(** Over a space that is neither [Discrete] nor [Box] the random step
    raises, after the observation was stored and the sample drawn. *)
Example step_random_over_other_space :
  raised (step 0 true true Examples.other_world) = Some NotImplementedError
  /\ new_calls Examples.other_world (world_of (step 0 true true Examples.other_world))
     = [CallStoreObservation (C := Double.collaborators ∅) 0 0 (VInt 0);
        CallEncodeRecentObservation 0;
        CallActionSpaceSample].
Proof. split; reflexivity. Qed.

End Concrete.
